(** * npg-metadata-sync: ONT metadata annotation (src/ont.py, src/metadata.py)

    A shallow embedding of the annotator that copies sample/study
    metadata and access controls from the ML warehouse onto iRODS
    collections, together with the properties proved about it.

    Conventions of the embedding
    - A Python [str] is a [str]: the list of its code points. The
      regular-expression class [\d] of a [str] pattern is the Unicode
      category Nd, which is also what [int()] reads.
    - A Python [int] is a [Z]; a datetime is a [Z] (seconds on some clock).
    - A [PurePath] is the list of its components.
    - A value that may be [None] is an [option].
    - Exceptions are an explicit [outcome]; the iRODS zone and the log of
      calls made on it are threaded as explicit state. *)

From Stdlib Require Import ZArith NArith List Sorted Lia.
From Stdlib Require Strings.Byte.
From stdpp Require Import gmap list fin_maps.

(* ===================================================================== *)
(** ** Strings *)
(* ===================================================================== *)

(** A Python [str]: its code points, in order. *)
Definition str : Type := list N.

(** String literals: a literal of printable ASCII characters denotes the
    list of their codes. *)
Inductive literal : Type :=
| Lnil
| Lcons (c : N) (l : literal).

Fixpoint literal_of_bytes (l : list Byte.byte) : option literal :=
  match l with
  | nil => Some Lnil
  | b :: l' =>
      match literal_of_bytes l' with
      | Some s => if (Byte.to_N b <? 128)%N then Some (Lcons (Byte.to_N b) s) else None
      | None => None
      end
  end.

Fixpoint bytes_of_literal (s : literal) : option (list Byte.byte) :=
  match s with
  | Lnil => Some nil
  | Lcons c l =>
      match Byte.of_N c, bytes_of_literal l with
      | Some b, Some bs => if (c <? 128)%N then Some (b :: bs) else None
      | _, _ => None
      end
  end.

Declare Scope str_scope.
Delimit Scope str_scope with str.
Bind Scope str_scope with str.
Set Warnings "-via-type-remapping,-via-type-mismatch".
String Notation str literal_of_bytes bytes_of_literal
  (via literal mapping [[nil] => Lnil, [cons] => Lcons]) : str_scope.
Set Warnings "via-type-remapping,via-type-mismatch".

Open Scope Z_scope.
Open Scope str_scope.
Open Scope list_scope.

(** [ord(c)] for a string of one character. *)
Definition ord (c : str) : N :=
  match c with
  | [x] => x
  | _ => 0%N
  end.

(** Comparison of strings by code point, the first difference deciding. *)
Fixpoint compare_str (a b : str) : comparison :=
  match a, b with
  | [], [] => Eq
  | [], _ :: _ => Lt
  | _ :: _, [] => Gt
  | x :: a', y :: b' =>
      match N.compare x y with
      | Eq => compare_str a' b'
      | Lt => Lt
      | Gt => Gt
      end
  end.

(* ===================================================================== *)
(** ** Exceptions and outcomes *)
(* ===================================================================== *)

Definition PurePath : Type := list str.

(** [ValueError] is the one the identifier codec raises for an identifier
    that does not match its pattern (the InvalidIdentifier of the design);
    [ValueError_int] is the [ValueError] that [int()] raises for a numeral
    beyond its length limit; [RodsError] is what the storage client raises
    for a collection that does not exist (the TargetNotFound of the
    design). *)
Inductive exn : Type :=
| ValueError (tag_identifier : str)
| ValueError_int (numeral : str)
| RodsError (path : PurePath).

Inductive outcome (A : Type) : Type :=
| Return (a : A)
| Raise (e : exn).
Arguments Return {A} a.
Arguments Raise {A} e.

(* ===================================================================== *)
(** ** Identifier codec: [tag_index] and [barcode_name] *)
(* ===================================================================== *)

(** The decimal digits of Unicode (category Nd) come in runs of ten
    consecutive code points, zero to nine. These are the zeros of the runs
    of Unicode 14.0, the character database of CPython 3.11. *)
Definition decimal_zeros : list N :=
  [
    48; 1632; 1776; 1984; 2406; 2534; 2662; 2790; 2918; 3046; 3174; 3302;
    3430; 3558; 3664; 3792; 3872; 4160; 4240; 6112; 6160; 6470; 6608; 6784;
    6800; 6992; 7088; 7232; 7248; 42528; 43216; 43264; 43472; 43504; 43600;
    44016; 65296; 66720; 68912; 69734; 69872; 69942; 70096; 70384; 70736;
    70864; 71248; 71360; 71472; 71904; 72016; 72784; 73040; 73120; 92768;
    92864; 93008; 120782; 120792; 120802; 120812; 120822; 123200; 123632;
    125264; 130032
  ]%N.

(** [unicodedata.decimal(c)], when [c] is a decimal digit: its offset in
    the run of ten it belongs to. *)
Definition decimal (c : N) : option Z :=
  match find (fun z => (z <=? c) && (c <? z + 10))%N decimal_zeros with
  | Some z => Some (Z.of_N (c - z))
  | None => None
  end.

(** [\d] in a [str] pattern: any decimal digit, not only 0-9. *)
Definition is_digit (c : N) : bool :=
  match decimal c with
  | Some _ => true
  | None => false
  end.

(** The value [int()] gives a digit. *)
Definition digit_value (c : N) : Z :=
  match decimal c with
  | Some v => v
  | None => 0
  end.

(** [$] without MULTILINE: the end of the string, or just before a newline
    that is the last character of the string. *)
Definition at_end (s : str) : bool :=
  match s with
  | [] => true
  | [c] => (c =? 10)%N
  | _ => false
  end.

(** [(?P<tag_index>\d+)$] tried at the head of [s]: the greedy repetition
    takes one digit, first tries to take more, and on failure stops there
    and tests [$]. The result is the text of the group. *)
Fixpoint digits_then_end (s : str) : option str :=
  match s with
  | [] => None
  | c :: t =>
      if is_digit c then
        match digits_then_end t with
        | Some ds => Some (c :: ds)
        | None => if at_end t then Some [c] else None
        end
      else None
  end.

(** The whole pattern [-(?P<tag_index>\d+)$] tried at the head of [s]. *)
Definition match_at (s : str) : option str :=
  match s with
  | c :: t => if (c =? ord "-")%N then digits_then_end t else None
  | [] => None
  end.

(** [TAG_IDENTIFIER_REGEX.search]: the match at the leftmost position at
    which the pattern matches, as the text of group [tag_index]. *)
Fixpoint TAG_IDENTIFIER_REGEX_search (s : str) : option str :=
  match match_at s with
  | Some g => Some g
  | None =>
      match s with
      | [] => None
      | _ :: t => TAG_IDENTIFIER_REGEX_search t
      end
  end.

(** Reading a string of decimal digits from the left, most significant
    digit first. *)
Fixpoint int_from (acc : Z) (s : str) : Z :=
  match s with
  | [] => acc
  | c :: t => int_from (10 * acc + digit_value c) t
  end.

(** The number a string of decimal digits denotes. *)
Definition int_value (s : str) : Z := int_from 0 s.

(** [sys.get_int_max_str_digits()], left at its default. *)
Definition int_max_str_digits : Z := 4300.

(** [int(s)] for a string of decimal digits: the number it denotes, unless
    it has more digits than the limit, leading zeros included. *)
Definition int (s : str) : outcome Z :=
  if int_max_str_digits <? Z.of_nat (length s)
  then Raise (ValueError_int s)
  else Return (int_value s).

Fixpoint zeros (n : nat) : str :=
  match n with
  | O => []
  | S k => "0" ++ zeros k
  end.

(** [str.zfill(width)] for a string without a sign. *)
Definition zfill (width : nat) (s : str) : str :=
  zeros (width - length s) ++ s.

Definition tag_index (tag_identifier : str) : outcome Z :=
  match TAG_IDENTIFIER_REGEX_search tag_identifier with
  | Some g => int g
  | None => Raise (ValueError tag_identifier)
  end.

Definition barcode_name (tag_identifier : str) : outcome str :=
  match TAG_IDENTIFIER_REGEX_search tag_identifier with
  | Some g => Return ("barcode" ++ zfill 2 g)
  | None => Raise (ValueError tag_identifier)
  end.

(** A string of decimal digits. *)
Fixpoint all_digits (s : str) : bool :=
  match s with
  | [] => true
  | c :: t => is_digit c && all_digits t
  end.

(** A string of one or more decimal digits. *)
Definition digits (s : str) : bool :=
  match s with
  | [] => false
  | _ :: _ => all_digits s
  end.

(** One of the ten digits 0-9. *)
Definition is_ascii_digit (c : N) : bool :=
  ((ord "0" <=? c) && (c <=? ord "9"))%N.

(** A string of one or more of the digits 0-9. *)
Definition ascii_digits (s : str) : bool :=
  match s with
  | [] => false
  | _ :: _ => forallb is_ascii_digit s
  end.

Arguments decimal : simpl never.
Arguments is_digit : simpl never.
Arguments digit_value : simpl never.

(* ===================================================================== *)
(** ** Metadata vocabularies (src/metadata.py) *)
(* ===================================================================== *)

Module TrackedSample.
Inductive t : Type :=
| ACCESSION_NUMBER | COHORT | COMMON_NAME | CONSENT | CONSENT_WITHDRAWN
| CONTROL | DONOR_ID | ID | NAME | PUBLIC_NAME | SUPPLIER_NAME.

Definition value (m : t) : str :=
  match m with
  | ACCESSION_NUMBER => "sample_accession_number"
  | COHORT => "sample_cohort"
  | COMMON_NAME => "sample_common_name"
  | CONSENT => "sample_consent"
  | CONSENT_WITHDRAWN => "sample_consent_withdrawn"
  | CONTROL => "sample_control"
  | DONOR_ID => "sample_donor_id"
  | ID => "sample_id"
  | NAME => "sample"
  | PUBLIC_NAME => "sample_public_name"
  | SUPPLIER_NAME => "sample_supplier_name"
  end.
End TrackedSample.

Module TrackedStudy.
Inductive t : Type := ACCESSION_NUMBER | ID | NAME | TITLE.

Definition value (m : t) : str :=
  match m with
  | ACCESSION_NUMBER => "study_accession_number"
  | ID => "study_id"
  | NAME => "study"
  | TITLE => "study_title"
  end.
End TrackedStudy.

Module ONTInstrument.
Inductive t : Type := EXPERIMENT_NAME | INSTRUMENT_SLOT.

Definition namespace : str := "ont".

Definition value (m : t) : str :=
  match m with
  | EXPERIMENT_NAME => "experiment_name"
  | INSTRUMENT_SLOT => "instrument_slot"
  end.
End ONTInstrument.

(* ===================================================================== *)
(** ** Storage client values: AVU, AC, Permission *)
(* ===================================================================== *)

(** What the source passes as an AVU value: a string or an integer. *)
Inductive pyval : Type :=
| VStr (s : str)
| VInt (z : Z).

Record AVU : Type := mkAVU {
  avu_namespace : str;
  avu_attribute : str;
  avu_value : pyval
}.

(** [AVU(attribute, value)]: no namespace. *)
Definition AVU_new (attribute : str) (value : pyval) : AVU :=
  mkAVU "" attribute value.

Definition with_namespace (namespace : str) (avu : AVU) : AVU :=
  mkAVU namespace (avu_attribute avu) (avu_value avu).

Module Permission.
Inductive t : Type := NULL | OWN | READ | WRITE.
End Permission.

Record AC : Type := mkAC {
  ac_user : str;
  ac_perm : Permission.t
}.

(* ===================================================================== *)
(** ** Warehouse rows *)
(* ===================================================================== *)

Module Sample.
Record t : Type := mk {
  sanger_sample_id : option str;
  name : option str;
  accession_number : option str;
  donor_id : option str;
  supplier_name : option str;
  consent_withdrawn : bool
}.
End Sample.

Module Study.
Record t : Type := mk {
  id_study_lims : str;
  name : option str;
  accession_number : option str
}.
End Study.

Module OseqFlowcell.
Record t : Type := mk {
  experiment_name : str;
  instrument_slot : Z;
  tag_identifier : option str;
  tag2_identifier : option str;
  sample : Sample.t;
  study : Study.t;
  last_updated : Z
}.
End OseqFlowcell.

(** The warehouse session, as far as the queries below read it: the rows of
    the flowcell table, each joined with its sample and study. *)
Definition Session : Type := list OseqFlowcell.t.

(* ===================================================================== *)
(** ** Metadata deriver *)
(* ===================================================================== *)

Definition avu_if_value (attribute : str) (value : option pyval) : option AVU :=
  match value with
  | Some v => Some (AVU_new attribute v)
  | None => None
  end.

(** [list(filter(lambda avu: avu is not None, starmap(avu_if_value, av)))] *)
Definition starmap_filter (av : list (str * option pyval)) : list AVU :=
  omap (fun '(a, v) => avu_if_value a v) av.

Definition make_sample_metadata (sample : Sample.t) : list AVU :=
  let av :=
    [ (TrackedSample.value TrackedSample.ID,
        VStr <$> Sample.sanger_sample_id sample);
      (TrackedSample.value TrackedSample.NAME,
        VStr <$> Sample.name sample);
      (TrackedSample.value TrackedSample.ACCESSION_NUMBER,
        VStr <$> Sample.accession_number sample);
      (TrackedSample.value TrackedSample.DONOR_ID,
        VStr <$> Sample.donor_id sample);
      (TrackedSample.value TrackedSample.SUPPLIER_NAME,
        VStr <$> Sample.supplier_name sample);
      (TrackedSample.value TrackedSample.CONSENT_WITHDRAWN,
        if Sample.consent_withdrawn sample then Some (VInt 1) else None) ] in
  starmap_filter av.

Definition make_study_metadata (study : Study.t) : list AVU :=
  let av :=
    [ (TrackedStudy.value TrackedStudy.ID,
        Some (VStr (Study.id_study_lims study)));
      (TrackedStudy.value TrackedStudy.NAME,
        VStr <$> Study.name study);
      (TrackedStudy.value TrackedStudy.ACCESSION_NUMBER,
        VStr <$> Study.accession_number study) ] in
  starmap_filter av.

Definition make_sample_acl (sample : Sample.t) (study : Study.t) : list AC :=
  let irods_group := "ss_" ++ Study.id_study_lims study in
  let perm :=
    if Sample.consent_withdrawn sample then Permission.NULL else Permission.READ in
  [mkAC irods_group perm].

(* ===================================================================== *)
(** ** Warehouse queries *)
(* ===================================================================== *)

(** Lexicographic chaining of comparisons, as in a multi-column ORDER BY. *)
Definition lex (c1 c2 : comparison) : comparison :=
  match c1 with
  | Eq => c2
  | Lt => Lt
  | Gt => Gt
  end.

(** [asc] on a nullable column: NULL sorts before every value. Strings are
    compared by code point. *)
Definition compare_nullable (a b : option str) : comparison :=
  match a, b with
  | None, None => Eq
  | None, Some _ => Lt
  | Some _, None => Gt
  | Some x, Some y => compare_str x y
  end.

Definition leb_of (cmp : comparison) : bool :=
  match cmp with
  | Gt => false
  | _ => true
  end.

(** ORDER BY: a stable insertion sort on the given comparison. *)
Fixpoint insert_by {A : Type} (cmp : A -> A -> comparison) (x : A) (l : list A) : list A :=
  match l with
  | [] => [x]
  | y :: l' =>
      if leb_of (cmp x y) then x :: y :: l' else y :: insert_by cmp x l'
  end.

Definition order_by {A : Type} (cmp : A -> A -> comparison) (l : list A) : list A :=
  foldr (insert_by cmp) [] l.

Definition compare_pos (a b : str * Z) : comparison :=
  lex (compare_str a.1 b.1) (Z.compare a.2 b.2).

(** [find_recent_ont_pos]: WHERE, then GROUP BY on the two selected columns,
    then ORDER BY. *)
Definition find_recent_ont_pos (session : Session) (since : Z) : list (str * Z) :=
  let rows := filter (fun fc => since <= OseqFlowcell.last_updated fc) session in
  let groups :=
    remove_dups
      (map (fun fc => (OseqFlowcell.experiment_name fc,
                       OseqFlowcell.instrument_slot fc)) rows) in
  order_by compare_pos groups.

Definition compare_plex (a b : OseqFlowcell.t) : comparison :=
  lex (compare_str (OseqFlowcell.experiment_name a) (OseqFlowcell.experiment_name b))
 (lex (Z.compare (OseqFlowcell.instrument_slot a) (OseqFlowcell.instrument_slot b))
 (lex (compare_nullable (OseqFlowcell.tag_identifier a) (OseqFlowcell.tag_identifier b))
      (compare_nullable (OseqFlowcell.tag2_identifier a) (OseqFlowcell.tag2_identifier b)))).

Definition find_ont_plex_info (session : Session) (experiment_name : str)
    (instrument_slot : Z) : list OseqFlowcell.t :=
  let flowcells :=
    filter (fun fc => OseqFlowcell.experiment_name fc = experiment_name
                      /\ OseqFlowcell.instrument_slot fc = instrument_slot) session in
  order_by compare_plex flowcells.

(** [find_recent_ont_expt]: WHERE, then SELECT DISTINCT on the experiment
    name; each row of the result is unpacked into the name it holds. The
    query has no ORDER BY: names come in the order of their first row. *)
Definition find_recent_ont_expt (session : Session) (since : Z) : list str :=
  let rows := filter (fun fc => since <= OseqFlowcell.last_updated fc) session in
  let result := remove_dups (map OseqFlowcell.experiment_name rows) in
  result.

(** Ascending by tag identifier, then by second tag identifier, NULL
    first: the order of the plex query within one experiment and position. *)
Definition tags_le (a b : OseqFlowcell.t) : Prop :=
  leb_of
    (lex (compare_nullable (OseqFlowcell.tag_identifier a)
                           (OseqFlowcell.tag_identifier b))
         (compare_nullable (OseqFlowcell.tag2_identifier a)
                           (OseqFlowcell.tag2_identifier b))) = true.

(* ===================================================================== *)
(** ** The storage zone *)
(* ===================================================================== *)

(** One collection or data object: its metadata, keyed by namespace and
    attribute, and its access control list, keyed by principal. *)
Record node : Type := mkNode {
  metadata : gmap (str * str) pyval;
  acl : gmap str Permission.t
}.

(** The calls the annotator makes on the storage client. *)
Inductive call : Type :=
| AddMetadata (coll : PurePath) (avus : list AVU)
| AddPermissions (coll : PurePath) (acs : list AC) (recurse : bool).

Definition call_target (c : call) : PurePath :=
  match c with
  | AddMetadata coll _ => coll
  | AddPermissions coll _ _ => coll
  end.

(** Modelled from the spec: the storage client (the partisan library) is
    not part of this repository. A tag is upserted by namespace and
    attribute: it replaces any prior value, and other tags are untouched. *)
Definition upsert_avu (n : node) (avu : AVU) : node :=
  mkNode (<[(avu_namespace avu, avu_attribute avu) := avu_value avu]> (metadata n))
         (acl n).

(** Modelled from the spec: the storage client is not part of this
    repository. A grant replaces any prior grant for the same principal. *)
Definition upsert_ac (n : node) (ac : AC) : node :=
  mkNode (metadata n) (<[ac_user ac := ac_perm ac]> (acl n)).

(** The nodes a permission call reaches: the collection itself and, when
    recursing, everything stored beneath it. *)
Definition reaches (coll : PurePath) (recurse : bool) (q : PurePath) : bool :=
  bool_decide (q = coll) || (recurse && bool_decide (coll `prefix_of` q)).

(** Modelled from the spec: the storage client is not part of this
    repository. The effect of a call on a zone in which its collection
    exists. *)
Definition apply_call (c : call) (st : gmap PurePath node) : gmap PurePath node :=
  match c with
  | AddMetadata coll avus =>
      alter (fun n => foldl upsert_avu n avus) coll st
  | AddPermissions coll acs recurse =>
      map_imap (fun q n =>
        Some (if reaches coll recurse q then foldl upsert_ac n acs else n)) st
  end.

(** The state threaded through the annotator: the zone, and the calls made
    on the storage client so far, oldest first. *)
Record world : Type := mkWorld {
  store : gmap PurePath node;
  calls : list call
}.

Definition M (A : Type) : Type := world -> outcome A * world.

#[global] Instance M_ret : MRet M := fun A a w => (Return a, w).

#[global] Instance M_bind : MBind M := fun A B f m w =>
  match m w with
  | (Return a, w') => f a w'
  | (Raise e, w') => (Raise e, w')
  end.

(** A raising pure computation, used inside the annotator. *)
Definition lift {A : Type} (o : outcome A) : M A := fun w => (o, w).

(** Modelled from the spec: the storage client is not part of this
    repository. A call on a collection that does not exist raises and
    changes nothing; otherwise it takes effect. Either way it is logged. *)
Definition invoke (c : call) : M unit := fun w =>
  let log := calls w ++ [c] in
  match store w !! call_target c with
  | None => (Raise (RodsError (call_target c)), mkWorld (store w) log)
  | Some _ => (Return tt, mkWorld (apply_call c (store w)) log)
  end.

(** [Collection(coll).add_metadata( *avus )] *)
Definition add_metadata (coll : PurePath) (avus : list AVU) : M unit :=
  invoke (AddMetadata coll avus).

(** [Collection(coll).add_permissions( *acs, recurse=recurse )] *)
Definition add_permissions (coll : PurePath) (acs : list AC) (recurse : bool) : M unit :=
  invoke (AddPermissions coll acs recurse).

(* ===================================================================== *)
(** ** The annotator *)
(* ===================================================================== *)

(** Truth value of [fc.tag_identifier]: [None] and the empty string are
    false. *)
Definition truthy (tag_identifier : option str) : option str :=
  match tag_identifier with
  | Some [] => None
  | Some s => Some s
  | None => None
  end.

(** [PurePath(path) / name] for a one-component relative name. *)
Definition joinpath (path : PurePath) (name : str) : PurePath := path ++ [name].

(** The body of the loop over the plex records. The variable [coll] is
    shared between iterations: the first branch rebinds it to the barcode
    sub-collection, the second uses whatever it is bound to. The result is
    the binding of [coll] after the iteration. *)
Definition annotate_fc (path : PurePath) (coll : PurePath) (fc : OseqFlowcell.t)
    : M PurePath :=
  match truthy (OseqFlowcell.tag_identifier fc) with
  | Some tag_identifier =>
      name ← lift (barcode_name tag_identifier);
      let p := joinpath path name in
      let coll := p in
      idx ← lift (tag_index tag_identifier);
      add_metadata coll [AVU_new "tag_index" (VInt idx)];;
      add_metadata coll (make_study_metadata (OseqFlowcell.study fc));;
      add_metadata coll (make_sample_metadata (OseqFlowcell.sample fc));;
      add_permissions coll
        (make_sample_acl (OseqFlowcell.sample fc) (OseqFlowcell.study fc)) true;;
      mret coll
  | None =>
      add_metadata coll (make_study_metadata (OseqFlowcell.study fc));;
      add_metadata coll (make_sample_metadata (OseqFlowcell.sample fc));;
      add_permissions coll
        (make_sample_acl (OseqFlowcell.sample fc) (OseqFlowcell.study fc)) true;;
      mret coll
  end.

(** [for fc in plex_info: ...] *)
Fixpoint for_each (path : PurePath) (coll : PurePath) (plex_info : list OseqFlowcell.t)
    : M PurePath :=
  match plex_info with
  | [] => mret coll
  | fc :: rest =>
      coll' ← annotate_fc path coll fc;
      for_each path coll' rest
  end.

Definition annotate_results_collection (path : PurePath) (experiment_name : str)
    (instrument_slot : Z) (mlwh_session : Session) : M unit :=
  let plex_info := find_ont_plex_info mlwh_session experiment_name instrument_slot in
  let avus :=
    [ AVU_new (ONTInstrument.value ONTInstrument.EXPERIMENT_NAME) (VStr experiment_name);
      AVU_new (ONTInstrument.value ONTInstrument.INSTRUMENT_SLOT) (VInt instrument_slot) ] in
  let avus := map (with_namespace ONTInstrument.namespace) avus in
  let coll := path in
  add_metadata coll avus;;
  for_each path coll plex_info;;
  mret tt.

(* ===================================================================== *)
(** ** Vocabulary of the specification *)
(* ===================================================================== *)

Definition newline : str := [10%N].

(** The first call of every invocation: the two instrument-identity tags
    on the root collection. *)
Definition instrument_call (path : PurePath) (experiment_name : str)
    (instrument_slot : Z) : call :=
  AddMetadata path
    [ mkAVU "ont" "experiment_name" (VStr experiment_name);
      mkAVU "ont" "instrument_slot" (VInt instrument_slot) ].

(** The three calls that annotate one target with one sample/study pair. *)
Definition sample_study_calls (coll : PurePath) (fc : OseqFlowcell.t) : list call :=
  [ AddMetadata coll (make_study_metadata (OseqFlowcell.study fc));
    AddMetadata coll (make_sample_metadata (OseqFlowcell.sample fc));
    AddPermissions coll
      (make_sample_acl (OseqFlowcell.sample fc) (OseqFlowcell.study fc)) true ].

(** The calls that annotate a barcode target: its tag index, then its
    sample/study pair. *)
Definition barcode_calls (coll : PurePath) (idx : Z) (fc : OseqFlowcell.t) : list call :=
  AddMetadata coll [AVU_new "tag_index" (VInt idx)] :: sample_study_calls coll fc.

(** A record is tagged when its tag identifier is neither [None] nor empty. *)
Definition tagged (fc : OseqFlowcell.t) : bool :=
  bool_decide (is_Some (truthy (OseqFlowcell.tag_identifier fc))).

(** The barcode sub-collection of a record, when its tag identifier is
    non-empty and well-formed: the codec accepts it, that is, both
    [barcode_name] and [tag_index] return on it. *)
Definition barcode_target (path : PurePath) (fc : OseqFlowcell.t) : option PurePath :=
  match truthy (OseqFlowcell.tag_identifier fc) with
  | Some t =>
      match barcode_name t, tag_index t with
      | Return name, Return _ => Some (joinpath path name)
      | _, _ => None
      end
  | None => None
  end.

(** The tag index of a record, when it has one. *)
Definition record_tag_index (fc : OseqFlowcell.t) : option Z :=
  match truthy (OseqFlowcell.tag_identifier fc) with
  | Some t =>
      match tag_index t with
      | Return idx => Some idx
      | Raise _ => None
      end
  | None => None
  end.

(** Where a record is annotated and with which calls, judged from the
    record alone: the root for a record that is not tagged, its barcode
    sub-collection for one with a well-formed tag identifier. *)
Definition routed_calls (path : PurePath) (fc : OseqFlowcell.t) : list call :=
  if tagged fc then
    match barcode_target path fc, record_tag_index fc with
    | Some coll, Some idx => barcode_calls coll idx fc
    | _, _ => []
    end
  else sample_study_calls path fc.

(** A record the annotator can process: not tagged, or tagged with a
    well-formed identifier whose barcode sub-collection exists. *)
Definition processable (st : gmap PurePath node) (path : PurePath)
    (fc : OseqFlowcell.t) : Prop :=
  tagged fc = true ->
  exists coll, barcode_target path fc = Some coll /\ is_Some (st !! coll).

(** A multiplexed record the annotator can process: tagged with a
    well-formed identifier whose barcode sub-collection exists. *)
Definition plexed (st : gmap PurePath node) (path : PurePath)
    (fc : OseqFlowcell.t) : Prop :=
  exists coll, barcode_target path fc = Some coll /\ is_Some (st !! coll).

(** A record whose tag identifier, if it is tagged, is accepted by the
    codec: it matches the pattern and [int()] reads its digits. *)
Definition well_formed (fc : OseqFlowcell.t) : Prop :=
  forall t, truthy (OseqFlowcell.tag_identifier fc) = Some t ->
            exists g idx, TAG_IDENTIFIER_REGEX_search t = Some g /\
                          int g = Return idx.

(** The order in which the plex query lists records: a tagged record is
    followed by tagged records only. *)
Definition tagged_mono (a b : OseqFlowcell.t) : Prop :=
  tagged a = true -> tagged b = true.

(** One primitive update of a node. *)
Inductive upd : Type :=
| UMeta (avu : AVU)
| UAcl (ac : AC).

Definition apply_upd (n : node) (u : upd) : node :=
  match u with
  | UMeta avu => upsert_avu n avu
  | UAcl ac => upsert_ac n ac
  end.

(** An update that leaves the tags of every named namespace alone. *)
Definition plain_upd (u : upd) : Prop :=
  match u with
  | UMeta avu => avu_namespace avu = ""
  | UAcl _ => True
  end.

(** The tag an update writes, as the key it is stored under. *)
Definition upd_meta_key (u : upd) : option (str * str) :=
  match u with
  | UMeta avu => Some (avu_namespace avu, avu_attribute avu)
  | UAcl _ => None
  end.

(** The principal whose grant an update writes. *)
Definition upd_acl_user (u : upd) : option str :=
  match u with
  | UMeta _ => None
  | UAcl ac => Some (ac_user ac)
  end.

(** The tags derived for one record, in the order in which the annotator
    applies them to a barcode sub-collection. *)
Definition derived_tags (idx : Z) (fc : OseqFlowcell.t) : list AVU :=
  AVU_new "tag_index" (VInt idx)
    :: make_study_metadata (OseqFlowcell.study fc)
    ++ make_sample_metadata (OseqFlowcell.sample fc).

(** The attributes the annotator can write without a namespace. *)
Definition derived_attributes : list str :=
  [ "tag_index"; "study_id"; "study"; "study_accession_number";
    "sample_id"; "sample"; "sample_accession_number"; "sample_donor_id";
    "sample_supplier_name"; "sample_consent_withdrawn" ].

(** The keys, namespace and attribute, of all the tags the annotator can
    write. *)
Definition written_keys : list (str * str) :=
  [ ("ont", "experiment_name"); ("ont", "instrument_slot") ]
  ++ ((fun a => ("", a)) <$> derived_attributes).

(** The updates a call makes to the node at [q]. *)
Definition node_updates (q : PurePath) (c : call) : list upd :=
  match c with
  | AddMetadata coll avus =>
      if bool_decide (q = coll) then UMeta <$> avus else []
  | AddPermissions coll acs recurse =>
      if reaches coll recurse q then UAcl <$> acs else []
  end.

(** A sequence of calls, one after the other, stopping at the first that
    raises. *)
Fixpoint invoke_all (cs : list call) : M unit :=
  match cs with
  | [] => mret tt
  | c :: cs' => invoke c;; invoke_all cs'
  end.

(** The calls of a sequence that take effect on a zone, and the call that
    raises, if any: the first whose collection does not exist. *)
Fixpoint attempt (st : gmap PurePath node) (cs : list call) : list call * option call :=
  match cs with
  | [] => ([], None)
  | c :: cs' =>
      match st !! call_target c with
      | None => ([], Some c)
      | Some _ => let '(ok, bad) := attempt st cs' in (c :: ok, bad)
      end
  end.

(** The calls the loop sets out to make, given the binding of [coll] on
    entry, and the exception of the codec that ends it, if any. *)
Fixpoint plan (path coll : PurePath) (plex_info : list OseqFlowcell.t)
    : list call * option exn :=
  match plex_info with
  | [] => ([], None)
  | fc :: rest =>
      match truthy (OseqFlowcell.tag_identifier fc) with
      | Some t =>
          match TAG_IDENTIFIER_REGEX_search t with
          | Some g =>
              match int g with
              | Return idx =>
                  let coll' := joinpath path ("barcode" ++ zfill 2 g) in
                  let '(cs, e) := plan path coll' rest in
                  (barcode_calls coll' idx fc ++ cs, e)
              | Raise e => ([], Some e)
              end
          | None => ([], Some (ValueError t))
          end
      | None =>
          let '(cs, e) := plan path coll rest in
          (sample_study_calls coll fc ++ cs, e)
      end
  end.

(** Ascending order under a comparison. *)
Definition cmp_le {A : Type} (cmp : A -> A -> comparison) (x y : A) : Prop :=
  leb_of (cmp x y) = true.

(** Strictly ascending by experiment name, then by position. *)
Definition pos_lt (a b : str * Z) : Prop :=
  compare_str a.1 b.1 = Lt \/ (a.1 = b.1 /\ a.2 < b.2).

(** The effect of a sequence of calls that all take effect. *)
Definition apply_calls (cs : list call) (st : gmap PurePath node) : gmap PurePath node :=
  foldl (fun st c => apply_call c st) st cs.

(** The exception raised for the call that fails, if any. *)
Definition outcome_of (bad : option call) : outcome unit :=
  match bad with
  | Some c => Raise (RodsError (call_target c))
  | None => Return tt
  end.

(** Making the planned calls, then raising the planned exception. *)
Definition run_plan (p : list call * option exn) : M unit :=
  invoke_all p.1;;
  match p.2 with
  | Some e => lift (Raise e)
  | None => mret tt
  end.

(** *** Data for the worked examples *)

Definition sample_named (name : str) : Sample.t :=
  Sample.mk None (Some name) None None None false.

Definition study_z : Study.t := Study.mk "study_03" (Some "Study Z") None.

(** A record of position 1 of experiment "multiplexed_experiment_001". *)
Definition flowcell (tag_identifier : option str) (sample_name : str)
    : OseqFlowcell.t :=
  OseqFlowcell.mk "multiplexed_experiment_001" 1 tag_identifier None
    (sample_named sample_name) study_z 0.

(** A zone with the given nodes, all without tags and grants, on which no
    call has been made yet. *)
Definition zone (paths : list PurePath) : world :=
  mkWorld (list_to_map ((fun p => (p, mkNode ∅ ∅)) <$> paths)) [].

(* ===================================================================== *)
(** ** Identifier codec *)
(* ===================================================================== *)

Lemma decimal_bounds (c : N) (v : Z) : decimal c = Some v -> 0 <= v <= 9.
Proof.
  unfold decimal.
  destruct (find _ decimal_zeros) as [z|] eqn:Hz; [|discriminate].
  apply find_some in Hz as [_ Hz]. apply andb_true_iff in Hz as [H1 H2].
  apply N.leb_le in H1. apply N.ltb_lt in H2. intros [= <-]. lia.
Qed.

Lemma digit_value_bounds (c : N) : 0 <= digit_value c <= 9.
Proof.
  unfold digit_value. destruct (decimal c) as [v|] eqn:Hv; [|lia].
  now apply decimal_bounds in Hv.
Qed.

(** The ten digits 0-9 are decimal digits, with the values they show. *)
Lemma is_ascii_digit_spec (c : N) :
  is_ascii_digit c = true ->
  is_digit c = true /\ digit_value c = Z.of_N c - 48.
Proof.
  unfold is_ascii_digit. intros H. apply andb_true_iff in H as [H1 H2].
  apply N.leb_le in H1. apply N.leb_le in H2. cbn [ord] in H1, H2.
  assert (Hc : (c = 48 \/ c = 49 \/ c = 50 \/ c = 51 \/ c = 52 \/ c = 53 \/
                c = 54 \/ c = 55 \/ c = 56 \/ c = 57)%N) by lia.
  repeat (destruct Hc as [-> | Hc]; [split; reflexivity|]).
  subst c. split; reflexivity.
Qed.

Lemma ascii_digits_digits (s : str) : ascii_digits s = true -> digits s = true.
Proof.
  destruct s as [|c s]; [discriminate|]. unfold ascii_digits, digits.
  generalize (c :: s). clear. intros s.
  induction s as [|c s IH]; [reflexivity|]. simpl.
  intros H. apply andb_true_iff in H as [Hc Hs].
  apply is_ascii_digit_spec in Hc as [-> _]. now apply IH.
Qed.

Lemma digits_cons (c : N) (t : str) :
  digits (c :: t) = is_digit c && all_digits t.
Proof. reflexivity. Qed.

Lemma digits_all (g : str) : digits g = true -> all_digits g = true.
Proof. destruct g; [discriminate | auto]. Qed.

(** A run of digits followed by the end of the string, or by one final
    newline, is matched whole. *)
Lemma digits_then_end_complete (g : str) :
  digits g = true ->
  digits_then_end g = Some g /\ digits_then_end (g ++ newline) = Some g.
Proof.
  induction g as [|c t IH]; [discriminate|].
  rewrite digits_cons. intros H. apply andb_true_iff in H as [Hc Ht].
  cbn [app digits_then_end]. rewrite Hc.
  destruct t as [|d t'].
  - split; reflexivity.
  - destruct IH as [IH1 IH2].
    + rewrite digits_cons. exact Ht.
    + rewrite IH1, IH2. split; reflexivity.
Qed.

Lemma at_end_inv (s : str) : at_end s = true -> s = "" \/ s = newline.
Proof.
  destruct s as [|c [|d t]]; simpl; intros H; try discriminate.
  - now left.
  - right. apply N.eqb_eq in H. now subst.
Qed.

(** Whatever the group matches is a run of digits that ends the string, up
    to one final newline. *)
Lemma digits_then_end_sound (s g : str) :
  digits_then_end s = Some g ->
  digits g = true /\ (s = g \/ s = g ++ newline).
Proof.
  revert g. induction s as [|c t IH]; intros g; cbn [digits_then_end]; [discriminate|].
  destruct (is_digit c) eqn:Hc; [|discriminate].
  destruct (digits_then_end t) as [ds|] eqn:Ht.
  - intros [= <-]. destruct (IH ds eq_refl) as [Hd Hs].
    split.
    + rewrite digits_cons, Hc. simpl. now apply digits_all.
    + cbn [app]. destruct Hs as [-> | ->]; [now left | now right].
  - destruct (at_end t) eqn:He; [|discriminate].
    intros [= <-]. split.
    + rewrite digits_cons, Hc. reflexivity.
    + apply at_end_inv in He as [-> | ->]; [now left | now right].
Qed.

(** A run of digits contains no character that is not a digit. *)
Lemma all_digits_no_other (c : N) (p t g : str) :
  is_digit c = false -> all_digits g = true -> g <> p ++ c :: t.
Proof.
  intros Hc. revert g.
  induction p as [|x p IH]; intros [|d g'] Hg; cbn [app]; try discriminate.
  - intros [= -> ->]. simpl in Hg. rewrite Hc in Hg. discriminate.
  - intros [= -> ->]. simpl in Hg. apply andb_true_iff in Hg as [_ Hg].
    now apply (IH _ Hg).
Qed.

Lemma all_digits_app (a b : str) :
  all_digits (a ++ b) = all_digits a && all_digits b.
Proof.
  induction a as [|c a IH]; [reflexivity|].
  cbn [app all_digits]. rewrite IH. now rewrite andb_assoc.
Qed.

(** A run of digits ends in a digit. *)
Lemma digits_last (g : str) :
  digits g = true -> exists g0 d, g = g0 ++ [d] /\ is_digit d = true.
Proof.
  intros Hg. destruct g as [|c g] using rev_ind; [discriminate|].
  apply digits_all in Hg. rewrite all_digits_app in Hg.
  apply andb_true_iff in Hg as [_ Hg]. cbn [all_digits] in Hg.
  rewrite andb_true_r in Hg. eauto.
Qed.

Lemma app_newline_inj (a b : str) : a ++ newline = b ++ newline -> a = b.
Proof. apply app_inv_tail. Qed.

(** The pattern matches a string that ends in a dash and a run of digits
    (and possibly one final newline), wherever earlier dashes stand, and
    the group is that run. *)
Lemma search_suffix (p g tail : str) :
  digits g = true -> tail = "" \/ tail = newline ->
  TAG_IDENTIFIER_REGEX_search (p ++ "-" ++ g ++ tail) = Some g.
Proof.
  intros Hg Htail.
  assert (Hhere : digits_then_end (g ++ tail) = Some g).
  { destruct (digits_then_end_complete g Hg) as [H1 H2].
    destruct Htail as [-> | ->]; [now rewrite app_nil_r | exact H2]. }
  induction p as [|c p IH]; cbn [app].
  - cbn [TAG_IDENTIFIER_REGEX_search match_at]. rewrite N.eqb_refl, Hhere. reflexivity.
  - cbn [TAG_IDENTIFIER_REGEX_search].
    destruct (match_at (c :: _)) as [g'|] eqn:Hm; [|exact IH].
    exfalso. unfold match_at in Hm.
    destruct (c =? ord "-")%N; [|discriminate].
    apply digits_then_end_sound in Hm as [Hg' Hs].
    apply digits_all in Hg'.
    assert (Hdash : is_digit (ord "-") = false) by reflexivity.
    destruct Hs as [Hs | Hs].
    + symmetry in Hs. revert Hs. now apply all_digits_no_other.
    + destruct Htail as [-> | ->].
      * (* the left side ends in a digit, the right side in a newline *)
        rewrite app_nil_r in Hs.
        destruct (digits_last g Hg) as (g0 & d & -> & Hd).
        change (p ++ 45%N :: g0 ++ [d]) with (p ++ (45%N :: g0) ++ [d]) in Hs.
        rewrite app_assoc in Hs. apply app_inj_tail in Hs as [_ ->]. discriminate.
      * change (p ++ 45%N :: g ++ newline) with (p ++ (45%N :: g) ++ newline) in Hs.
        rewrite app_assoc in Hs. apply app_newline_inj in Hs.
        symmetry in Hs. revert Hs. now apply all_digits_no_other.
Qed.

(** Conversely, a match decomposes the string. *)
Lemma search_sound (s g : str) :
  TAG_IDENTIFIER_REGEX_search s = Some g ->
  digits g = true /\
  exists p, s = p ++ "-" ++ g \/ s = p ++ "-" ++ g ++ newline.
Proof.
  induction s as [|c t IH]; cbn [TAG_IDENTIFIER_REGEX_search match_at]; [discriminate|].
  destruct (c =? ord "-")%N eqn:Hc.
  - apply N.eqb_eq in Hc as ->.
    destruct (digits_then_end t) as [g'|] eqn:Hm.
    + intros [= <-]. apply digits_then_end_sound in Hm as [Hg Hs].
      split; [exact Hg|]. exists "".
      destruct Hs as [-> | ->]; [now left | now right].
    + intros H. destruct (IH H) as [Hg [p Hp]]. split; [exact Hg|].
      exists ("-" ++ p). destruct Hp as [-> | ->]; [now left | now right].
  - intros H. destruct (IH H) as [Hg [p Hp]]. split; [exact Hg|].
    exists (c :: p). destruct Hp as [-> | ->]; [now left | now right].
Qed.


(* ===================================================================== *)
(** ** The annotator as a plan of calls *)
(* ===================================================================== *)

Ltac unfold_M :=
  unfold run_plan, add_metadata, add_permissions, lift, mbind, M_bind, mret, M_ret in *.

Lemma invoke_all_app (a b : list call) (w : world) :
  invoke_all (a ++ b) w =
  match invoke_all a w with
  | (Return _, w') => invoke_all b w'
  | (Raise e, w') => (Raise e, w')
  end.
Proof.
  revert w. induction a as [|c a IH]; intros w; simpl; [reflexivity|].
  unfold_M. destruct (invoke c w) as [[[]|e] w']; [apply IH | reflexivity].
Qed.

Lemma annotate_fc_untagged (path coll : PurePath) (fc : OseqFlowcell.t) (w : world) :
  truthy (OseqFlowcell.tag_identifier fc) = None ->
  annotate_fc path coll fc w =
  match invoke_all (sample_study_calls coll fc) w with
  | (Return _, w') => (Return coll, w')
  | (Raise e, w') => (Raise e, w')
  end.
Proof.
  intros H. unfold annotate_fc. rewrite H. simpl. unfold_M.
  repeat (match goal with |- context [invoke ?c ?w] =>
            destruct (invoke c w) as [[[]|?] ?] end; try reflexivity).
Qed.

Lemma annotate_fc_tagged (path coll : PurePath) (fc : OseqFlowcell.t) (w : world)
    (t g : str) (idx : Z) :
  truthy (OseqFlowcell.tag_identifier fc) = Some t ->
  TAG_IDENTIFIER_REGEX_search t = Some g ->
  int g = Return idx ->
  let coll' := joinpath path ("barcode" ++ zfill 2 g) in
  annotate_fc path coll fc w =
  match invoke_all (barcode_calls coll' idx fc) w with
  | (Return _, w') => (Return coll', w')
  | (Raise e, w') => (Raise e, w')
  end.
Proof.
  intros H Hg Hi. unfold annotate_fc, barcode_name, tag_index. rewrite H, Hg, Hi.
  simpl. unfold_M.
  repeat (match goal with |- context [invoke ?c ?w] =>
            destruct (invoke c w) as [[[]|?] ?] end; try reflexivity).
Qed.

Lemma annotate_fc_malformed (path coll : PurePath) (fc : OseqFlowcell.t) (w : world)
    (t : str) :
  truthy (OseqFlowcell.tag_identifier fc) = Some t ->
  TAG_IDENTIFIER_REGEX_search t = None ->
  annotate_fc path coll fc w = (Raise (ValueError t), w).
Proof.
  intros H Hg. unfold annotate_fc, barcode_name. rewrite H, Hg. reflexivity.
Qed.

(** When [int()] refuses the digits, the barcode name has been computed
    but no call has been made. *)
Lemma annotate_fc_unreadable (path coll : PurePath) (fc : OseqFlowcell.t) (w : world)
    (t g : str) (e : exn) :
  truthy (OseqFlowcell.tag_identifier fc) = Some t ->
  TAG_IDENTIFIER_REGEX_search t = Some g ->
  int g = Raise e ->
  annotate_fc path coll fc w = (Raise e, w).
Proof.
  intros H Hg Hi. unfold annotate_fc, barcode_name, tag_index.
  rewrite H, Hg, Hi. reflexivity.
Qed.

(** The loop makes exactly the planned calls. *)
Lemma for_each_plan (path : PurePath) (plex_info : list OseqFlowcell.t) :
  forall (coll : PurePath) (w : world),
    (for_each path coll plex_info;; mret tt) w = run_plan (plan path coll plex_info) w.
Proof.
  induction plex_info as [|fc rest IH]; intros coll w; [reflexivity|].
  cbn [for_each plan].
  destruct (truthy (OseqFlowcell.tag_identifier fc)) as [t|] eqn:Ht.
  - destruct (TAG_IDENTIFIER_REGEX_search t) as [g|] eqn:Hg.
    + destruct (int g) as [idx|x] eqn:Hi.
      * specialize (IH (joinpath path ("barcode" ++ zfill 2 g))).
        destruct (plan path (joinpath path ("barcode" ++ zfill 2 g)) rest)
          as [cs e] eqn:Hp.
        unfold run_plan in *. cbn [fst snd] in *.
        unfold mbind, M_bind in *.
        rewrite (annotate_fc_tagged _ _ _ _ t g idx Ht Hg Hi), invoke_all_app.
        destruct (invoke_all (barcode_calls _ _ fc) w) as [[[]|e'] w']; [|reflexivity].
        apply IH.
      * unfold run_plan, mbind, M_bind. cbn [fst snd].
        now rewrite (annotate_fc_unreadable _ _ _ _ t g x Ht Hg Hi).
    + unfold run_plan, mbind, M_bind. cbn [fst snd].
      now rewrite (annotate_fc_malformed _ _ _ _ t Ht Hg).
  - specialize (IH coll).
    destruct (plan path coll rest) as [cs e] eqn:Hp.
    unfold run_plan in *. cbn [fst snd] in *.
    unfold mbind, M_bind in *.
    rewrite (annotate_fc_untagged _ _ _ _ Ht), invoke_all_app.
    destruct (invoke_all (sample_study_calls _ fc) w) as [[[]|e'] w']; [|reflexivity].
    apply IH.
Qed.

(** The whole invocation: the instrument call, then the plan of the loop
    entered with [coll] bound to the root. *)
Lemma annotate_results_collection_plan (path : PurePath) (experiment_name : str)
    (instrument_slot : Z) (session : Session) (w : world) :
  annotate_results_collection path experiment_name instrument_slot session w =
  let p := plan path path (find_ont_plex_info session experiment_name instrument_slot) in
  run_plan (instrument_call path experiment_name instrument_slot :: p.1, p.2) w.
Proof.
  unfold annotate_results_collection. cbn zeta.
  pose proof (for_each_plan path
    (find_ont_plex_info session experiment_name instrument_slot) path) as H.
  unfold run_plan in *. cbn [fst snd invoke_all].
  unfold add_metadata, mbind, M_bind in *.
  change (AddMetadata path _) with (instrument_call path experiment_name instrument_slot).
  destruct (invoke _ w) as [[[]|e] w']; [apply H | reflexivity].
Qed.

(* ===================================================================== *)
(** ** The storage zone under a sequence of calls *)
(* ===================================================================== *)

Lemma foldl_upsert_avu (avus : list AVU) (n : node) :
  foldl upsert_avu n avus = foldl apply_upd n (UMeta <$> avus).
Proof. revert n. induction avus as [|a l IH]; intros n; simpl; [reflexivity | apply IH]. Qed.

Lemma foldl_upsert_ac (acs : list AC) (n : node) :
  foldl upsert_ac n acs = foldl apply_upd n (UAcl <$> acs).
Proof. revert n. induction acs as [|a l IH]; intros n; simpl; [reflexivity | apply IH]. Qed.

(** A call acts on each node separately, through its updates of that node. *)
Lemma apply_call_lookup (c : call) (st : gmap PurePath node) (q : PurePath) :
  apply_call c st !! q = (fun n => foldl apply_upd n (node_updates q c)) <$> st !! q.
Proof.
  destruct c as [coll avus | coll acs recurse]; simpl.
  - rewrite lookup_alter. case_bool_decide as Hq; case_decide as Hd; subst; try congruence.
    + destruct (st !! coll) as [n|]; simpl; [|reflexivity].
      now rewrite foldl_upsert_avu.
    + destruct (st !! q); reflexivity.
  - rewrite map_lookup_imap. destruct (st !! q) as [n|]; simpl; [|reflexivity].
    destruct (reaches coll recurse q); [now rewrite foldl_upsert_ac | reflexivity].
Qed.

Lemma apply_calls_lookup (cs : list call) (st : gmap PurePath node) (q : PurePath) :
  apply_calls cs st !! q =
  (fun n => foldl apply_upd n (cs ≫= node_updates q)) <$> st !! q.
Proof.
  unfold apply_calls. revert st. induction cs as [|c cs IH]; intros st; simpl.
  - destruct (st !! q); reflexivity.
  - rewrite IH, apply_call_lookup. destruct (st !! q) as [n|]; simpl; [|reflexivity].
    now rewrite foldl_app.
Qed.

(** No call creates or removes a node. *)
Lemma apply_calls_is_Some (cs : list call) (st : gmap PurePath node) (q : PurePath) :
  is_Some (apply_calls cs st !! q) <-> is_Some (st !! q).
Proof. rewrite apply_calls_lookup. apply fmap_is_Some. Qed.

Lemma apply_calls_app (a b : list call) (st : gmap PurePath node) :
  apply_calls (a ++ b) st = apply_calls b (apply_calls a st).
Proof. unfold apply_calls. apply foldl_app. Qed.

(** Which calls take effect depends on the zone only through the set of
    nodes that exist. *)
Lemma attempt_ext (st1 st2 : gmap PurePath node) (cs : list call) :
  (forall q, is_Some (st1 !! q) <-> is_Some (st2 !! q)) ->
  attempt st1 cs = attempt st2 cs.
Proof.
  intros H. induction cs as [|c cs IH]; simpl; [reflexivity|].
  rewrite IH. specialize (H (call_target c)).
  destruct (st1 !! call_target c) as [n1|], (st2 !! call_target c) as [n2|];
    try reflexivity.
  - destruct H as [H _]. destruct H as [? ?]; [eauto | discriminate].
  - destruct H as [_ H]. destruct H as [? ?]; [eauto | discriminate].
Qed.

Lemma attempt_apply_calls (cs0 cs : list call) (st : gmap PurePath node) :
  attempt (apply_calls cs0 st) cs = attempt st cs.
Proof. apply attempt_ext. intros q. apply apply_calls_is_Some. Qed.

(** A sequence of calls in terms of [attempt]: the calls that take effect
    are applied, and they and the failing call are logged. *)
Lemma invoke_all_attempt (cs : list call) (w : world) :
  invoke_all cs w =
  let '(ok, bad) := attempt (store w) cs in
  (outcome_of bad,
   mkWorld (apply_calls ok (store w)) (calls w ++ ok ++ option_list bad)).
Proof.
  revert w. induction cs as [|c cs IH]; intros [st log]; simpl.
  - rewrite app_nil_r. reflexivity.
  - unfold mbind, M_bind, invoke. cbn [store calls].
    destruct (st !! call_target c) as [n|] eqn:Hc; [|reflexivity].
    rewrite IH. cbn [store calls].
    change (apply_call c st) with (apply_calls [c] st).
    rewrite (attempt_apply_calls [c] cs st).
    destruct (attempt st cs) as [ok bad]. rewrite <- app_assoc. reflexivity.
Qed.

Lemma attempt_all_exist (st : gmap PurePath node) (cs : list call) :
  Forall (fun c => is_Some (st !! call_target c)) cs ->
  attempt st cs = (cs, None).
Proof.
  induction 1 as [|c cs [n Hc] _ IH]; simpl; [reflexivity|].
  rewrite Hc, IH. reflexivity.
Qed.

(** The calls that take effect and the failing call split the sequence. *)
Lemma attempt_prefix (st : gmap PurePath node) (cs : list call) :
  exists rest, cs = (attempt st cs).1 ++ option_list (attempt st cs).2 ++ rest.
Proof.
  induction cs as [|c cs [rest IH]]; simpl.
  - exists []. reflexivity.
  - destruct (st !! call_target c).
    + destruct (attempt st cs) as [ok bad]. simpl in *. exists rest. now rewrite <- IH.
    + exists cs. reflexivity.
Qed.

(* ===================================================================== *)
(** ** Idempotence *)
(* ===================================================================== *)

(** Two updates of a node either commute, or the later overwrites the
    earlier. *)
Lemma apply_upd_swap_or_absorb (n : node) (u u1 : upd) :
  apply_upd (apply_upd n u) u1 = apply_upd n u1 \/
  apply_upd (apply_upd n u) u1 = apply_upd (apply_upd n u1) u.
Proof.
  destruct u as [a|a], u1 as [b|b]; simpl; unfold upsert_avu, upsert_ac; simpl.
  - destruct (decide ((avu_namespace a, avu_attribute a)
                      = (avu_namespace b, avu_attribute b))) as [He|Hne].
    + left. rewrite He, insert_insert_eq. reflexivity.
    + right. rewrite insert_insert_ne by (intros Heq; now apply Hne). reflexivity.
  - right. reflexivity.
  - right. reflexivity.
  - destruct (decide (ac_user a = ac_user b)) as [He|Hne].
    + left. rewrite He, insert_insert_eq. reflexivity.
    + right. rewrite insert_insert_ne by (intros Heq; now apply Hne). reflexivity.
Qed.

Lemma apply_upd_twice (n : node) (u : upd) :
  apply_upd (apply_upd n u) u = apply_upd n u.
Proof.
  destruct u as [a|a]; simpl; unfold upsert_avu, upsert_ac; simpl;
    now rewrite insert_insert_eq.
Qed.

(** An update made again at the end makes its earlier occurrence moot. *)
Lemma apply_upd_absorb (us : list upd) (u : upd) :
  forall n : node,
    apply_upd (foldl apply_upd (apply_upd n u) us) u
    = apply_upd (foldl apply_upd n us) u.
Proof.
  induction us as [|u1 us IH]; intros n; simpl.
  - apply apply_upd_twice.
  - destruct (apply_upd_swap_or_absorb n u u1) as [-> | ->]; [reflexivity | apply IH].
Qed.

Lemma foldl_apply_upd_idem (us : list upd) :
  forall n : node,
    foldl apply_upd (foldl apply_upd n us) us = foldl apply_upd n us.
Proof.
  induction us as [|u us IH] using rev_ind; intros n; [reflexivity|].
  rewrite !foldl_app. simpl. rewrite apply_upd_absorb, IH. reflexivity.
Qed.

(** Applying a sequence of calls a second time changes nothing. *)
Lemma apply_calls_idem (cs : list call) (st : gmap PurePath node) :
  apply_calls cs (apply_calls cs st) = apply_calls cs st.
Proof.
  apply map_eq. intros q. rewrite !apply_calls_lookup.
  destruct (st !! q) as [n|]; simpl; [|reflexivity].
  now rewrite foldl_apply_upd_idem.
Qed.

Lemma run_plan_attempt (p : list call * option exn) (w : world) :
  run_plan p w =
  let '(ok, bad) := attempt (store w) p.1 in
  (match bad, p.2 with
   | Some c, _ => Raise (RodsError (call_target c))
   | None, Some e => Raise e
   | None, None => Return tt
   end,
   mkWorld (apply_calls ok (store w)) (calls w ++ ok ++ option_list bad)).
Proof.
  unfold run_plan, mbind, M_bind. rewrite invoke_all_attempt.
  destruct (attempt (store w) p.1) as [ok [c|]]; simpl; [reflexivity|].
  destruct p.2; reflexivity.
Qed.

(** Running a plan on the zone it has just produced gives the same
    outcome and leaves the zone as it is. *)
Lemma run_plan_idem (p : list call * option exn) (w : world) :
  (run_plan p (run_plan p w).2).1 = (run_plan p w).1 /\
  store (run_plan p (run_plan p w).2).2 = store (run_plan p w).2.
Proof.
  rewrite (run_plan_attempt p w).
  destruct (attempt (store w) p.1) as [ok bad] eqn:Ha. cbn [snd fst].
  rewrite run_plan_attempt. cbn [store calls].
  rewrite attempt_apply_calls, Ha. cbn [fst snd store].
  split; [reflexivity | apply apply_calls_idem].
Qed.

(* ===================================================================== *)
(** ** ORDER BY *)
(* ===================================================================== *)

Section OrderBy.
Context {A : Type} (cmp : A -> A -> comparison).
Hypothesis cmp_antisym : forall x y, cmp y x = CompOpp (cmp x y).

#[local] Abbreviation ascending := (cmp_le cmp).

Lemma insert_by_perm (x : A) (l : list A) : insert_by cmp x l ≡ₚ x :: l.
Proof.
  induction l as [|y l IH]; simpl; [reflexivity|].
  destruct (leb_of (cmp x y)); [reflexivity|].
  rewrite IH. apply Permutation_swap.
Qed.

Lemma order_by_perm (l : list A) : order_by cmp l ≡ₚ l.
Proof.
  unfold order_by. induction l as [|x l IH]; simpl; [reflexivity|].
  rewrite insert_by_perm. now rewrite IH.
Qed.

Lemma cmp_le_total (x y : A) : leb_of (cmp x y) = false -> ascending y x.
Proof.
  unfold ascending. rewrite (cmp_antisym x y). destruct (cmp x y); simpl; congruence.
Qed.

Lemma insert_by_HdRel (a x : A) (l : list A) :
  ascending a x -> HdRel ascending a l -> HdRel ascending a (insert_by cmp x l).
Proof.
  intros Hax Hl. destruct l as [|y l]; simpl.
  - now constructor.
  - destruct (leb_of (cmp x y)); constructor; [exact Hax | now inversion Hl].
Qed.

Lemma insert_by_Sorted (x : A) (l : list A) :
  Sorted ascending l -> Sorted ascending (insert_by cmp x l).
Proof.
  induction 1 as [|y l Hl IH Hy]; simpl.
  - repeat constructor.
  - destruct (leb_of (cmp x y)) eqn:Hxy.
    + constructor; [now constructor | now constructor].
    + constructor; [exact IH|].
      apply insert_by_HdRel; [now apply cmp_le_total | exact Hy].
Qed.

Lemma order_by_Sorted (l : list A) : Sorted ascending (order_by cmp l).
Proof.
  unfold order_by. induction l as [|x l IH]; simpl; [constructor|].
  now apply insert_by_Sorted.
Qed.

End OrderBy.

(** ** Comparisons *)

Lemma lex_antisym (a b a' b' : comparison) :
  a' = CompOpp a -> b' = CompOpp b -> lex a' b' = CompOpp (lex a b).
Proof. intros -> ->. destruct a; reflexivity. Qed.

Lemma compare_str_antisym (a b : str) :
  compare_str b a = CompOpp (compare_str a b).
Proof.
  revert b. induction a as [|x a IH]; intros [|y b]; simpl; try reflexivity.
  rewrite (N.compare_antisym x y).
  destruct (x ?= y)%N; simpl; [apply IH | reflexivity | reflexivity].
Qed.

Lemma compare_str_eq_iff (a b : str) : compare_str a b = Eq <-> a = b.
Proof.
  revert b. induction a as [|x a IH]; intros [|y b]; simpl;
    try (split; [discriminate | congruence]); [tauto|].
  destruct (N.compare_spec x y) as [->|H|H].
  - rewrite IH. split; [now intros -> | now intros [= ->]].
  - split; [discriminate | intros [= -> _]; lia].
  - split; [discriminate | intros [= -> _]; lia].
Qed.

Lemma compare_nullable_antisym (a b : option str) :
  compare_nullable b a = CompOpp (compare_nullable a b).
Proof. destruct a, b; simpl; try reflexivity. apply compare_str_antisym. Qed.

Lemma compare_pos_antisym (a b : str * Z) :
  compare_pos b a = CompOpp (compare_pos a b).
Proof.
  unfold compare_pos. apply lex_antisym;
    [apply compare_str_antisym | apply Z.compare_antisym].
Qed.

Lemma compare_plex_antisym (a b : OseqFlowcell.t) :
  compare_plex b a = CompOpp (compare_plex a b).
Proof.
  unfold compare_plex.
  repeat apply lex_antisym;
    auto using compare_str_antisym, Z.compare_antisym, compare_nullable_antisym.
Qed.

Lemma string_compare_refl (s : str) : compare_str s s = Eq.
Proof.
  induction s as [|c s IH]; simpl; [reflexivity|].
  now rewrite N.compare_refl.
Qed.

Lemma string_compare_lt_trans (a b c : str) :
  compare_str a b = Lt -> compare_str b c = Lt -> compare_str a c = Lt.
Proof.
  revert b c. induction a as [|x a IH]; intros [|y b] [|z c]; simpl; try congruence.
  destruct (N.compare_spec x y) as [Hxy|Hxy|Hxy];
    try discriminate;
  destruct (N.compare_spec y z) as [Hyz|Hyz|Hyz];
    try discriminate; intros H1 H2.
  - rewrite Hxy, Hyz, N.compare_refl. eauto.
  - rewrite Hxy. now apply N.compare_lt_iff in Hyz as ->.
  - rewrite <- Hyz. now apply N.compare_lt_iff in Hxy as ->.
  - assert (Hxz : (x < z)%N) by lia.
    now apply N.compare_lt_iff in Hxz as ->.
Qed.

(** ** Recent experiment positions *)

Lemma pos_lt_trans : Transitive pos_lt.
Proof.
  intros [a1 a2] [b1 b2] [c1 c2]. unfold pos_lt. simpl.
  intros [H1 | [-> H1]] [H2 | [-> H2]].
  - left. eapply string_compare_lt_trans; eauto.
  - now left.
  - now left.
  - right. split; [reflexivity | lia].
Qed.

Lemma compare_pos_le_ne (a b : str * Z) :
  cmp_le compare_pos a b -> a <> b -> pos_lt a b.
Proof.
  destruct a as [a1 a2], b as [b1 b2]. unfold cmp_le, compare_pos, pos_lt. simpl.
  destruct (compare_str a1 b1) eqn:H1; simpl; intros Hle Hne.
  - apply compare_str_eq_iff in H1 as ->. right. split; [reflexivity|].
    destruct (Z.compare_spec a2 b2); [congruence | assumption | discriminate].
  - now left.
  - discriminate.
Qed.

Lemma Sorted_le_NoDup_lt (l : list (str * Z)) :
  Sorted (cmp_le compare_pos) l -> NoDup l -> Sorted pos_lt l.
Proof.
  induction 1 as [|a l Hs IH Hd]; intros Hnd; [constructor|].
  apply NoDup_cons in Hnd as [Ha Hnd]. constructor; [now apply IH|].
  destruct Hd as [|b l Hab]; constructor.
  apply compare_pos_le_ne; [exact Hab|]. intros ->. apply Ha. now left.
Qed.

(** C8. The recent-positions query returns exactly the (experiment name,
    instrument position) pairs of the records updated at or after the
    timestamp, each once, in strictly ascending order of experiment name
    and then of position. *)
Theorem find_recent_ont_pos_spec (session : Session) (since : Z) :
  StronglySorted pos_lt (find_recent_ont_pos session since) /\
  NoDup (find_recent_ont_pos session since) /\
  forall (e : str) (p : Z),
    (e, p) ∈ find_recent_ont_pos session since <->
    exists fc, fc ∈ session /\ since <= OseqFlowcell.last_updated fc /\
               OseqFlowcell.experiment_name fc = e /\
               OseqFlowcell.instrument_slot fc = p.
Proof.
  unfold find_recent_ont_pos. cbn zeta.
  set (rows := filter _ session).
  set (groups := remove_dups _).
  assert (Hnd : NoDup (order_by compare_pos groups)).
  { rewrite (order_by_perm compare_pos groups). apply NoDup_remove_dups. }
  split; [|split; [exact Hnd|]].
  - apply Sorted_StronglySorted; [exact pos_lt_trans|].
    apply Sorted_le_NoDup_lt; [|exact Hnd].
    apply order_by_Sorted. exact compare_pos_antisym.
  - intros e p. rewrite (order_by_perm compare_pos groups).
    unfold groups. rewrite elem_of_remove_dups, list_elem_of_fmap.
    split.
    + intros [fc [Heq Hin]]. injection Heq as -> ->.
      apply list_elem_of_filter in Hin as [Hsince Hin]. eauto.
    + intros [fc (Hin & Hsince & <- & <-)]. exists fc. split; [reflexivity|].
      apply list_elem_of_filter. split; assumption.
Qed.

(* ===================================================================== *)
(** ** The plex query *)
(* ===================================================================== *)

Lemma elem_of_find_ont_plex_info (session : Session) (e : str) (p : Z)
    (fc : OseqFlowcell.t) :
  fc ∈ find_ont_plex_info session e p <->
  fc ∈ session /\ OseqFlowcell.experiment_name fc = e
  /\ OseqFlowcell.instrument_slot fc = p.
Proof.
  unfold find_ont_plex_info. cbn zeta.
  rewrite (order_by_perm compare_plex), list_elem_of_filter. tauto.
Qed.

Lemma tagged_true (fc : OseqFlowcell.t) :
  tagged fc = true <-> exists t, truthy (OseqFlowcell.tag_identifier fc) = Some t.
Proof.
  unfold tagged. rewrite bool_decide_eq_true. reflexivity.
Qed.

Lemma tagged_false (fc : OseqFlowcell.t) :
  tagged fc = false <-> truthy (OseqFlowcell.tag_identifier fc) = None.
Proof.
  unfold tagged. rewrite bool_decide_eq_false, <- eq_None_not_Some. reflexivity.
Qed.

(** Within one experiment and position, the ORDER BY lists records that are
    not tagged before tagged ones: NULL and the empty string sort before
    every other tag identifier. *)
Lemma compare_plex_tagged_mono (a b : OseqFlowcell.t) :
  OseqFlowcell.experiment_name a = OseqFlowcell.experiment_name b ->
  OseqFlowcell.instrument_slot a = OseqFlowcell.instrument_slot b ->
  cmp_le compare_plex a b -> tagged_mono a b.
Proof.
  intros He Hp. unfold cmp_le, compare_plex, tagged_mono.
  rewrite He, Hp, string_compare_refl, Z.compare_refl. cbn [lex].
  rewrite !tagged_true. intros Hle [t Ht].
  destruct (OseqFlowcell.tag_identifier a) as [[|c s]|]; try discriminate.
  destruct (OseqFlowcell.tag_identifier b) as [[|d s']|]; try discriminate.
  simpl. eauto.
Qed.

Lemma Sorted_impl_Forall {A : Type} (R R' : A -> A -> Prop) (Q : A -> Prop)
    (l : list A) :
  (forall a b, Q a -> Q b -> R a b -> R' a b) ->
  Forall Q l -> Sorted R l -> Sorted R' l.
Proof.
  intros Himp HQ Hs. induction Hs as [|a l Hs IH Hd]; [constructor|].
  apply Forall_cons in HQ as [Ha HQ]. constructor; [now apply IH|].
  destruct Hd as [|b l Hab]; constructor.
  apply Forall_cons in HQ as [Hb _]. now apply Himp.
Qed.

Lemma find_ont_plex_info_tagged_mono (session : Session) (e : str) (p : Z) :
  Sorted tagged_mono (find_ont_plex_info session e p).
Proof.
  apply (Sorted_impl_Forall (cmp_le compare_plex) tagged_mono
           (fun fc => OseqFlowcell.experiment_name fc = e
                      /\ OseqFlowcell.instrument_slot fc = p)).
  - intros a b [Ha1 Ha2] [Hb1 Hb2]. apply compare_plex_tagged_mono; congruence.
  - apply Forall_forall. intros fc Hin.
    apply elem_of_find_ont_plex_info in Hin. tauto.
  - apply order_by_Sorted. exact compare_plex_antisym.
Qed.

Lemma tagged_mono_trans : Transitive tagged_mono.
Proof. unfold tagged_mono. intros a b c Hab Hbc Ha. auto. Qed.

Lemma tagged_mono_rest (fc : OseqFlowcell.t) (l : list OseqFlowcell.t) :
  Sorted tagged_mono (fc :: l) -> tagged fc = true ->
  Forall (fun x => tagged x = true) l.
Proof.
  intros Hs Ht. apply (Sorted_extends tagged_mono_trans) in Hs.
  eapply List.Forall_impl; [|exact Hs]. intros x Hx. now apply Hx.
Qed.

(** ** The plan over the result of the plex query *)

Lemma routed_calls_untagged (path : PurePath) (fc : OseqFlowcell.t) :
  truthy (OseqFlowcell.tag_identifier fc) = None ->
  routed_calls path fc = sample_study_calls path fc.
Proof. intros H. unfold routed_calls. apply tagged_false in H. now rewrite H. Qed.

Lemma routed_calls_tagged (path : PurePath) (fc : OseqFlowcell.t) (t g : str)
    (idx : Z) :
  truthy (OseqFlowcell.tag_identifier fc) = Some t ->
  TAG_IDENTIFIER_REGEX_search t = Some g ->
  int g = Return idx ->
  routed_calls path fc =
  barcode_calls (joinpath path ("barcode" ++ zfill 2 g)) idx fc.
Proof.
  intros Ht Hg Hi. unfold routed_calls, barcode_target, record_tag_index.
  assert (Htag : tagged fc = true) by (apply tagged_true; eauto).
  rewrite Htag, Ht. unfold barcode_name, tag_index. now rewrite Hg, Hi.
Qed.

(** In query order, the binding of [coll] seen by a record that is not
    tagged is the root, so the plan over well-formed records is the
    concatenation of their routed calls. *)
Lemma plan_split (path : PurePath) (pre rest : list OseqFlowcell.t) :
  forall coll : PurePath,
    Sorted tagged_mono (pre ++ rest) ->
    coll = path \/ Forall (fun x => tagged x = true) (pre ++ rest) ->
    Forall well_formed pre ->
    exists coll',
      plan path coll (pre ++ rest) =
      ((pre ≫= routed_calls path) ++ (plan path coll' rest).1,
       (plan path coll' rest).2).
Proof.
  induction pre as [|fc pre IH]; intros coll Hs Hc Hwf.
  - exists coll. simpl. now destruct (plan path coll rest).
  - apply Forall_cons in Hwf as [Hfc Hwf].
    assert (Hs' : Sorted tagged_mono (pre ++ rest)) by now inversion Hs.
    change ((fc :: pre) ++ rest) with (fc :: (pre ++ rest)).
    cbn [plan]. rewrite bind_cons.
    destruct (truthy (OseqFlowcell.tag_identifier fc)) as [t|] eqn:Ht.
    + destruct (Hfc t Ht) as (g & idx & Hg & Hi). rewrite Hg, Hi.
      rewrite (routed_calls_tagged path fc t g idx Ht Hg Hi).
      destruct (IH (joinpath path ("barcode" ++ zfill 2 g)) Hs') as [coll' ->];
        [|exact Hwf|].
      * right. apply (tagged_mono_rest fc); [exact Hs|]. apply tagged_true. eauto.
      * exists coll'. now rewrite <- app_assoc.
    + assert (Hcoll : coll = path).
      { destruct Hc as [Hc|Hc]; [exact Hc|].
        apply Forall_cons in Hc as [Hc _]. apply tagged_false in Ht. congruence. }
      subst coll. rewrite (routed_calls_untagged path fc Ht).
      destruct (IH path Hs') as [coll' ->]; [now left | exact Hwf |].
      exists coll'. now rewrite <- app_assoc.
Qed.

(** When every record is well-formed, every record is routed. *)
Lemma plan_well_formed (path : PurePath) (session : Session) (e : str) (p : Z) :
  Forall well_formed (find_ont_plex_info session e p) ->
  plan path path (find_ont_plex_info session e p) =
  (find_ont_plex_info session e p ≫= routed_calls path, None).
Proof.
  intros Hwf.
  destruct (plan_split path (find_ont_plex_info session e p) [] path) as [coll' H].
  - rewrite app_nil_r. apply find_ont_plex_info_tagged_mono.
  - now left.
  - exact Hwf.
  - rewrite app_nil_r in H. rewrite H. simpl. now rewrite app_nil_r.
Qed.

(** The plan ends at the first malformed tag identifier. *)
Lemma plan_malformed (path : PurePath) (session : Session) (e : str) (p : Z)
    (pre post : list OseqFlowcell.t) (bad : OseqFlowcell.t) (t : str) :
  find_ont_plex_info session e p = pre ++ bad :: post ->
  Forall well_formed pre ->
  truthy (OseqFlowcell.tag_identifier bad) = Some t ->
  TAG_IDENTIFIER_REGEX_search t = None ->
  plan path path (find_ont_plex_info session e p) =
  (pre ≫= routed_calls path, Some (ValueError t)).
Proof.
  intros Heq Hwf Ht Hg.
  destruct (plan_split path pre (bad :: post) path) as [coll' H].
  - rewrite <- Heq. apply find_ont_plex_info_tagged_mono.
  - now left.
  - exact Hwf.
  - rewrite Heq, H. cbn [plan]. rewrite Ht, Hg. simpl. now rewrite app_nil_r.
Qed.

(* ===================================================================== *)
(** ** Properties of the identifier codec *)
(* ===================================================================== *)

Lemma int_from_app (a b : str) (acc : Z) :
  int_from acc (a ++ b) = int_from (int_from acc a) b.
Proof.
  revert acc. induction a as [|c a IH]; intros acc; [reflexivity|].
  cbn [app int_from]. apply IH.
Qed.

(** A numeral is read digit by digit: appending a digit multiplies by ten
    and adds the digit. *)
Lemma int_value_snoc (s : str) (c : N) :
  int_value (s ++ [c]) = 10 * int_value s + digit_value c.
Proof. unfold int_value. rewrite int_from_app. reflexivity. Qed.

Lemma int_value_zeros (n : nat) (s : str) : int_value (zeros n ++ s) = int_value s.
Proof.
  unfold int_value. rewrite int_from_app. f_equal.
  induction n as [|n IH]; [reflexivity | exact IH].
Qed.

(** Zero-padding does not change the number a digit string denotes. *)
Lemma int_value_zfill (w : nat) (s : str) : int_value (zfill w s) = int_value s.
Proof. apply int_value_zeros. Qed.

Lemma zfill_long (w : nat) (s : str) :
  (w <= length s)%nat -> zfill w s = s.
Proof.
  intros H. unfold zfill. replace (w - length s)%nat with 0%nat by lia.
  reflexivity.
Qed.

(** [int()] accepts a numeral of up to 4300 digits and refuses a longer
    one. *)
Lemma int_short (s : str) :
  Z.of_nat (length s) <= 4300 -> int s = Return (int_value s).
Proof.
  intros H. unfold int, int_max_str_digits.
  destruct (Z.ltb_spec 4300 (Z.of_nat (length s))); [lia | reflexivity].
Qed.

Lemma int_long (s : str) :
  4300 < Z.of_nat (length s) -> int s = Raise (ValueError_int s).
Proof.
  intros H. unfold int, int_max_str_digits.
  destruct (Z.ltb_spec 4300 (Z.of_nat (length s))); [reflexivity | lia].
Qed.

Lemma int_Return (s : str) (idx : Z) :
  int s = Return idx <-> Z.of_nat (length s) <= 4300 /\ idx = int_value s.
Proof.
  unfold int, int_max_str_digits.
  destruct (Z.ltb_spec 4300 (Z.of_nat (length s))); split.
  - discriminate.
  - intros [? _]. lia.
  - intros [= <-]. split; [lia | reflexivity].
  - intros [_ ->]. reflexivity.
Qed.

(** C6 (as amended). For every string made of a prefix, a dash, a run of one
    or more decimal digits (of any script, as the pattern takes them) and
    then the end of the string or one final newline, [barcode_name] returns
    "barcode" followed by the run zero-padded to width 2: one digit gets one
    leading zero, two or more digits are kept as they are; [tag_index]
    returns the run as an integer when the run has at most 4300 digits, and
    raises the [ValueError] of [int()] when it has more. Every other string
    makes both functions raise the [ValueError] of the codec. The integer is
    the run read as a decimal numeral, the digits 0-9 having the values they
    show. *)
Theorem tag_identifier_codec :
  (forall p ds tail : str,
     digits ds = true -> tail = "" \/ tail = newline ->
     barcode_name (p ++ "-" ++ ds ++ tail) = Return ("barcode" ++ zfill 2 ds) /\
     (Z.of_nat (length ds) <= 4300 ->
      tag_index (p ++ "-" ++ ds ++ tail) = Return (int_value ds)) /\
     (4300 < Z.of_nat (length ds) ->
      tag_index (p ++ "-" ++ ds ++ tail) = Raise (ValueError_int ds))) /\
  (forall s : str,
     (tag_index s = Raise (ValueError s) /\ barcode_name s = Raise (ValueError s)) \/
     (exists p ds tail : str,
        digits ds = true /\ (tail = "" \/ tail = newline) /\
        s = p ++ "-" ++ ds ++ tail)) /\
  (forall c : N, zfill 2 [c] = "0" ++ [c]) /\
  (forall ds : str, (2 <= length ds)%nat -> zfill 2 ds = ds) /\
  (int_value "" = 0 /\
   forall (s : str) (c : N), int_value (s ++ [c]) = 10 * int_value s + digit_value c) /\
  (forall c : N,
     is_ascii_digit c = true ->
     is_digit c = true /\ digit_value c = Z.of_N c - Z.of_N (ord "0")).
Proof.
  split; [|split; [|split; [|split; [|split]]]].
  - intros p ds tail Hd Htail. unfold tag_index, barcode_name.
    rewrite (search_suffix p ds tail Hd Htail).
    split; [reflexivity|]. split; [apply int_short | apply int_long].
  - intros s. unfold tag_index, barcode_name.
    destruct (TAG_IDENTIFIER_REGEX_search s) as [g|] eqn:Hs; [right | left; split; reflexivity].
    apply search_sound in Hs as [Hg [p Hp]]. exists p, g.
    destruct Hp as [-> | ->].
    + exists "". rewrite app_nil_r. auto.
    + exists newline. auto.
  - reflexivity.
  - intros ds. apply zfill_long.
  - split; [reflexivity | apply int_value_snoc].
  - apply is_ascii_digit_spec.
Qed.

Lemma tag_identifier_codec_witness :
  tag_index "ONT_EXP-012-07" = Return 7 /\
  barcode_name "ONT_EXP-012-07" = Return "barcode07" /\
  barcode_name "ONT_EXP-012-123" = Return "barcode123".
Proof.
  destruct tag_identifier_codec as [H _].
  destruct (H "ONT_EXP-012" "07" "") as (H2 & H1 & _); [reflexivity | now left |].
  destruct (H "ONT_EXP-012" "123" "") as (H3 & _); [reflexivity | now left |].
  split; [apply H1; simpl; lia | split; [exact H2 | exact H3]].
Defined.

(** C6 (as stated) fails: a string that ends in a newline has no trailing
    dash-and-digits suffix, yet both functions accept it. *)
Lemma tag_identifier_final_newline :
  (forall p ds : str, digits ds = true ->
     "x-12" ++ newline <> p ++ "-" ++ ds) /\
  tag_index ("x-12" ++ newline) = Return 12 /\
  barcode_name ("x-12" ++ newline) = Return "barcode12".
Proof.
  split; [|split; reflexivity].
  intros p ds Hd Heq.
  destruct (digits_last ds Hd) as (g0 & d & -> & Hdig).
  change ("x-12" ++ newline) with ("x-12" ++ [10%N]) in Heq.
  rewrite !app_assoc in Heq. apply app_inj_tail in Heq as [_ <-].
  discriminate.
Qed.

(** C6 (as stated) fails in two more ways. First, a numeral of 4301
    digits is a trailing suffix of digits, and [tag_index] fails on it,
    though [barcode_name] does not. *)
Lemma tag_index_beyond_int_limit :
  let ds := repeat (ord "0") 4301 in
  digits ds = true /\
  tag_index ("x-" ++ ds) = Raise (ValueError_int ds) /\
  barcode_name ("x-" ++ ds) = Return ("barcode" ++ ds).
Proof. vm_compute. auto. Qed.

(** Second, the digits of the suffix need not be 0-9: the digits of any
    script are taken, here the Arabic-Indic one and two, and the padding
    is still the character 0. *)
Lemma tag_index_of_any_script :
  let ds : str := [1633; 1634]%N in
  is_ascii_digit 1633 = false /\
  tag_index ("x-" ++ ds) = Return 12 /\
  barcode_name ("x-" ++ ds) = Return ("barcode" ++ ds) /\
  barcode_name ("x-" ++ [1633%N]) = Return ("barcode0" ++ [1633%N]).
Proof. vm_compute. auto. Qed.

(* ===================================================================== *)
(** ** Properties of the metadata deriver *)
(* ===================================================================== *)

(** C2. The derived access decision is exactly one grant; its principal is
    the prefix "ss_" followed by the study's identifier; its level is NULL
    (no access) exactly when the sample's consent is withdrawn and READ
    exactly when it is not. Nothing but this sample and this study enters
    the decision. *)
Theorem make_sample_acl_grant (sample : Sample.t) (study : Study.t) :
  exists ac : AC,
    make_sample_acl sample study = [ac] /\
    ac_user ac = "ss_" ++ Study.id_study_lims study /\
    (ac_perm ac = Permission.NULL <-> Sample.consent_withdrawn sample = true) /\
    (ac_perm ac = Permission.READ <-> Sample.consent_withdrawn sample = false).
Proof.
  unfold make_sample_acl. eexists. split; [reflexivity|]. simpl.
  split; [reflexivity|].
  destruct (Sample.consent_withdrawn sample); split; split; congruence.
Qed.

(** What the filtered [starmap] keeps: one tag for each pair whose value
    is not [None]. *)
Lemma elem_of_starmap_filter (av : list (str * option pyval)) (avu : AVU) :
  avu ∈ starmap_filter av <->
  exists a v, (a, Some v) ∈ av /\ avu = AVU_new a v.
Proof.
  unfold starmap_filter. rewrite list_elem_of_omap. split.
  - intros [[a [v|]] [Hin Hf]]; simpl in Hf; [|discriminate].
    injection Hf as <-. eauto.
  - intros (a & v & Hin & ->). exists (a, Some v). split; [exact Hin | reflexivity].
Qed.

Lemma fmap_VStr_Some (o : option str) (v : pyval) :
  VStr <$> o = Some v <-> exists s, o = Some s /\ v = VStr s.
Proof.
  destruct o as [s|]; simpl; split.
  - intros [= <-]. eauto.
  - intros (s' & [= <-] & ->). reflexivity.
  - discriminate.
  - intros (s' & Hs & _). discriminate.
Qed.

(** C7 (as amended). A derived tag is present exactly when its source field
    is not [None], and then carries the field's value, whatever it is (an
    empty string included); the consent-withdrawn tag is present exactly
    when the flag is true, and its value is then the integer 1. *)
Theorem derived_tags_iff_not_none (sample : Sample.t) (study : Study.t) (avu : AVU) :
  (avu ∈ make_sample_metadata sample <->
     (exists v, Sample.sanger_sample_id sample = Some v
                /\ avu = AVU_new "sample_id" (VStr v)) \/
     (exists v, Sample.name sample = Some v
                /\ avu = AVU_new "sample" (VStr v)) \/
     (exists v, Sample.accession_number sample = Some v
                /\ avu = AVU_new "sample_accession_number" (VStr v)) \/
     (exists v, Sample.donor_id sample = Some v
                /\ avu = AVU_new "sample_donor_id" (VStr v)) \/
     (exists v, Sample.supplier_name sample = Some v
                /\ avu = AVU_new "sample_supplier_name" (VStr v)) \/
     (Sample.consent_withdrawn sample = true
      /\ avu = AVU_new "sample_consent_withdrawn" (VInt 1))) /\
  (avu ∈ make_study_metadata study <->
     avu = AVU_new "study_id" (VStr (Study.id_study_lims study)) \/
     (exists v, Study.name study = Some v
                /\ avu = AVU_new "study" (VStr v)) \/
     (exists v, Study.accession_number study = Some v
                /\ avu = AVU_new "study_accession_number" (VStr v))).
Proof.
  split.
  - unfold make_sample_metadata. cbn zeta. rewrite elem_of_starmap_filter.
    split.
    + intros (a & v & Hin & ->).
      repeat (apply elem_of_cons in Hin as [Hin | Hin]);
        [injection Hin as -> Hv; symmetry in Hv .. | now apply elem_of_nil in Hin].
      * apply fmap_VStr_Some in Hv as (s & Hs & ->). left. eauto.
      * apply fmap_VStr_Some in Hv as (s & Hs & ->). right; left. eauto.
      * apply fmap_VStr_Some in Hv as (s & Hs & ->). do 2 right; left. eauto.
      * apply fmap_VStr_Some in Hv as (s & Hs & ->). do 3 right; left. eauto.
      * apply fmap_VStr_Some in Hv as (s & Hs & ->). do 4 right; left. eauto.
      * do 5 right. destruct (Sample.consent_withdrawn sample); [|discriminate].
        injection Hv as <-. split; reflexivity.
    + intros [(v & Hv & ->) | [(v & Hv & ->) | [(v & Hv & ->) | [(v & Hv & ->)
             | [(v & Hv & ->) | [Hc ->]]]]]];
        eexists _, _; (split; [|reflexivity]); rewrite ?Hv, ?Hc;
        repeat first [apply list_elem_of_here | apply list_elem_of_further].
  - unfold make_study_metadata. cbn zeta. rewrite elem_of_starmap_filter.
    split.
    + intros (a & v & Hin & ->).
      repeat (apply elem_of_cons in Hin as [Hin | Hin]);
        [injection Hin as -> Hv; symmetry in Hv .. | now apply elem_of_nil in Hin].
      * subst v. now left.
      * apply fmap_VStr_Some in Hv as (s & Hs & ->). right; left. eauto.
      * apply fmap_VStr_Some in Hv as (s & Hs & ->). right; right. eauto.
    + intros [-> | [(v & Hv & ->) | (v & Hv & ->)]];
        eexists _, _; (split; [|reflexivity]); rewrite ?Hv;
        repeat first [apply list_elem_of_here | apply list_elem_of_further].
Qed.

(** C7 (as stated) fails: a field that holds the empty string is not
    [None], so its tag is derived, with an empty value. *)
Lemma empty_field_gives_empty_tag :
  AVU_new "sample" (VStr "")
    ∈ make_sample_metadata (Sample.mk None (Some "") None None None false)
  /\ AVU_new "study" (VStr "")
    ∈ make_study_metadata (Study.mk "study_01" (Some "") None).
Proof.
  split.
  - apply list_elem_of_here.
  - apply list_elem_of_further, list_elem_of_here.
Qed.

(* ===================================================================== *)
(** ** Properties of the annotator *)
(* ===================================================================== *)

(** C5. Applying the annotator a second time, with the warehouse unchanged,
    to the zone the first application left behind gives the same outcome
    and leaves every node of the zone, its tags and its access control
    list, exactly as the first application left it. *)
Theorem annotate_results_collection_idempotent (path : PurePath)
    (experiment_name : str) (instrument_slot : Z) (session : Session)
    (w : world) :
  store (annotate_results_collection path experiment_name instrument_slot session
           (annotate_results_collection path experiment_name instrument_slot
              session w).2).2
  = store (annotate_results_collection path experiment_name instrument_slot
             session w).2
  /\
  (annotate_results_collection path experiment_name instrument_slot session
     (annotate_results_collection path experiment_name instrument_slot
        session w).2).1
  = (annotate_results_collection path experiment_name instrument_slot session w).1.
Proof.
  rewrite !annotate_results_collection_plan. cbn zeta.
  destruct (run_plan_idem
    (instrument_call path experiment_name instrument_slot
       :: (plan path path (find_ont_plex_info session experiment_name instrument_slot)).1,
     (plan path path (find_ont_plex_info session experiment_name instrument_slot)).2) w)
    as [H1 H2].
  split; assumption.
Qed.

(** Tags without a namespace do not touch the instrument namespace. *)
Lemma foldl_plain_upd (us : list upd) (n : node) (k : str) :
  Forall plain_upd us ->
  metadata (foldl apply_upd n us) !! ("ont", k) = metadata n !! ("ont", k).
Proof.
  intros H. revert n. induction H as [|u us Hu _ IH]; intros n; [reflexivity|].
  simpl. rewrite IH. destruct u as [a|a]; simpl; [|reflexivity].
  simpl in Hu. apply lookup_insert_ne. rewrite Hu. congruence.
Qed.

Lemma starmap_filter_plain (av : list (str * option pyval)) :
  Forall plain_upd (UMeta <$> starmap_filter av).
Proof.
  apply Forall_fmap, Forall_forall. intros avu Hin.
  apply elem_of_starmap_filter in Hin as (a & v & _ & ->). reflexivity.
Qed.

Lemma node_updates_AddPermissions_plain (q coll : PurePath) (acs : list AC) (r : bool) :
  Forall plain_upd (node_updates q (AddPermissions coll acs r)).
Proof.
  cbn [node_updates]. destruct (reaches coll r q); [|constructor].
  apply Forall_fmap, Forall_forall. intros ? _. exact I.
Qed.

Lemma sample_study_calls_plain (q coll : PurePath) (fc : OseqFlowcell.t) :
  Forall plain_upd (sample_study_calls coll fc ≫= node_updates q).
Proof.
  unfold sample_study_calls. rewrite !bind_cons. change (@nil call ≫= node_updates q) with (@nil upd). rewrite app_nil_r.
  repeat apply Forall_app_2.
  - cbn [node_updates]. case_bool_decide; [apply starmap_filter_plain | constructor].
  - cbn [node_updates]. case_bool_decide; [apply starmap_filter_plain | constructor].
  - apply node_updates_AddPermissions_plain.
Qed.

Lemma barcode_calls_plain (q coll : PurePath) (idx : Z) (fc : OseqFlowcell.t) :
  Forall plain_upd (barcode_calls coll idx fc ≫= node_updates q).
Proof.
  unfold barcode_calls. rewrite bind_cons. apply Forall_app_2.
  - cbn [node_updates]. case_bool_decide; repeat constructor.
  - apply sample_study_calls_plain.
Qed.

(** Every call of the loop writes plain tags and grants only. *)
Lemma plan_plain (q path : PurePath) (l : list OseqFlowcell.t) :
  forall coll, Forall plain_upd ((plan path coll l).1 ≫= node_updates q).
Proof.
  induction l as [|fc l IH]; intros coll; [constructor|].
  cbn [plan]. destruct (truthy (OseqFlowcell.tag_identifier fc)) as [t|].
  - destruct (TAG_IDENTIFIER_REGEX_search t) as [g|]; [|constructor].
    destruct (int g) as [idx|x]; [|constructor].
    specialize (IH (joinpath path ("barcode" ++ zfill 2 g))).
    destruct (plan path _ l) as [cs e]. cbn [fst] in *.
    rewrite bind_app. apply Forall_app_2; [apply barcode_calls_plain | exact IH].
  - specialize (IH coll). destruct (plan path coll l) as [cs e]. cbn [fst] in *.
    rewrite bind_app. apply Forall_app_2; [apply sample_study_calls_plain | exact IH].
Qed.

Lemma attempt_ok_sublist (st : gmap PurePath node) (cs : list call) :
  exists rest, cs = (attempt st cs).1 ++ rest.
Proof.
  destruct (attempt_prefix st cs) as [rest H]. eauto.
Qed.

(** C9. Whatever the plex query returns (no record at all, or multiplexed
    records only), the first call of the annotator puts the experiment name
    and the instrument slot, under the namespace "ont", on the root
    collection; when the root collection exists they are on it when the
    invocation ends, however it ends. *)
Theorem instrument_tags_on_root (path : PurePath) (experiment_name : str)
    (instrument_slot : Z) (session : Session) (w : world) :
  is_Some (store w !! path) ->
  exists (rest : list call) (n : node),
    calls (annotate_results_collection path experiment_name instrument_slot
             session w).2
    = calls w ++ AddMetadata path
                   [ mkAVU "ont" "experiment_name" (VStr experiment_name);
                     mkAVU "ont" "instrument_slot" (VInt instrument_slot) ] :: rest
    /\ store (annotate_results_collection path experiment_name instrument_slot
                session w).2 !! path = Some n
    /\ metadata n !! ("ont", "experiment_name") = Some (VStr experiment_name)
    /\ metadata n !! ("ont", "instrument_slot") = Some (VInt instrument_slot).
Proof.
  intros [n0 Hroot].
  rewrite annotate_results_collection_plan. cbn zeta.
  set (p := plan path path _).
  rewrite run_plan_attempt. cbn [fst snd attempt instrument_call call_target].
  rewrite Hroot.
  destruct (attempt (store w) p.1) as [ok bad] eqn:Ha. cbn [fst snd store calls].
  eexists _, _. split; [reflexivity|].
  rewrite apply_calls_lookup, Hroot. split; [reflexivity|].
  rewrite bind_cons. unfold instrument_call. cbn [node_updates].
  rewrite bool_decide_eq_true_2 by reflexivity.
  rewrite foldl_app.
  assert (Hplain : Forall plain_upd (ok ≫= node_updates path)).
  { destruct (attempt_ok_sublist (store w) p.1) as [rest Hrest].
    rewrite Ha in Hrest. cbn [fst] in Hrest.
    pose proof (plan_plain path path
      (find_ont_plex_info session experiment_name instrument_slot) path) as Hp.
    fold p in Hp. rewrite Hrest, bind_app in Hp.
    now apply Forall_app in Hp as [Hp _]. }
  rewrite !(foldl_plain_upd _ _ _ Hplain). simpl.
  split.
  - rewrite lookup_insert_ne by congruence. apply lookup_insert_eq.
  - apply lookup_insert_eq.
Qed.

Lemma instrument_tags_on_root_witness :
  exists (rest : list call) (n : node),
    calls (annotate_results_collection ["run"] "experiment" 1 []
             (mkWorld {[ ["run"] := mkNode ∅ ∅ ]} [])).2
    = [] ++ AddMetadata ["run"]
              [ mkAVU "ont" "experiment_name" (VStr "experiment");
                mkAVU "ont" "instrument_slot" (VInt 1) ] :: rest
    /\ store (annotate_results_collection ["run"] "experiment" 1 []
                (mkWorld {[ ["run"] := mkNode ∅ ∅ ]} [])).2 !! ["run"] = Some n
    /\ metadata n !! ("ont", "experiment_name") = Some (VStr "experiment")
    /\ metadata n !! ("ont", "instrument_slot") = Some (VInt 1).
Proof.
  apply (instrument_tags_on_root ["run"] "experiment" 1 []
           (mkWorld {[ ["run"] := mkNode ∅ ∅ ]} [])).
  simpl. rewrite lookup_singleton_eq. eauto.
Defined.

(** ** Routing of the records *)

Lemma barcode_target_inv (path : PurePath) (fc : OseqFlowcell.t) (coll : PurePath) :
  barcode_target path fc = Some coll ->
  exists t g ix,
    truthy (OseqFlowcell.tag_identifier fc) = Some t /\
    TAG_IDENTIFIER_REGEX_search t = Some g /\
    int g = Return ix /\
    coll = joinpath path ("barcode" ++ zfill 2 g).
Proof.
  unfold barcode_target, barcode_name, tag_index.
  destruct (truthy (OseqFlowcell.tag_identifier fc)) as [t|]; [|discriminate].
  destruct (TAG_IDENTIFIER_REGEX_search t) as [g|] eqn:Hg; [|discriminate].
  destruct (int g) as [ix|x] eqn:Hi; [|discriminate].
  intros [= <-]. exists t, g, ix. auto.
Qed.

Lemma truthy_Some (o : option str) (t : str) :
  truthy o = Some t <-> o = Some t /\ t <> "".
Proof.
  destruct o as [[|c s]|]; simpl; split; try discriminate.
  - intros [[= <-] H]. congruence.
  - intros [= <-]. split; [reflexivity | discriminate].
  - intros [[= <-] _]. reflexivity.
  - intros [? _]. discriminate.
Qed.

Lemma processable_well_formed (st : gmap PurePath node) (path : PurePath)
    (fc : OseqFlowcell.t) :
  processable st path fc -> well_formed fc.
Proof.
  intros Hp t Ht. destruct Hp as (coll & Hc & _); [apply tagged_true; eauto|].
  apply barcode_target_inv in Hc as (t' & g & ix & Ht' & Hg & Hi & _).
  rewrite Ht in Ht'. injection Ht' as <-. eauto.
Qed.

Lemma plexed_processable (st : gmap PurePath node) (path : PurePath)
    (fc : OseqFlowcell.t) :
  plexed st path fc -> processable st path fc.
Proof. intros H _. exact H. Qed.

Lemma routed_calls_exist (st : gmap PurePath node) (path : PurePath)
    (fc : OseqFlowcell.t) :
  is_Some (st !! path) -> processable st path fc ->
  Forall (fun c => is_Some (st !! call_target c)) (routed_calls path fc).
Proof.
  intros Hroot Hp. destruct (tagged fc) eqn:Htag.
  - destruct (Hp Htag) as (coll & Hc & Hex).
    destruct (barcode_target_inv _ _ _ Hc) as (t & g & ix & Ht & Hg & Hi & ->).
    rewrite (routed_calls_tagged path fc t g ix Ht Hg Hi).
    repeat constructor; exact Hex.
  - apply tagged_false in Htag. rewrite (routed_calls_untagged path fc Htag).
    repeat constructor; exact Hroot.
Qed.

Lemma bind_routed_calls_exist (st : gmap PurePath node) (path : PurePath)
    (l : list OseqFlowcell.t) :
  is_Some (st !! path) -> Forall (processable st path) l ->
  Forall (fun c => is_Some (st !! call_target c)) (l ≫= routed_calls path).
Proof.
  intros Hroot H. induction H as [|fc l Hfc _ IH]; [constructor|].
  rewrite bind_cons. apply Forall_app_2; [now apply routed_calls_exist | exact IH].
Qed.

(** When the root exists and every record can be processed, the annotator
    returns, having made the instrument call and then the routed calls of
    each record, in query order. *)
Lemma annotate_routed (path : PurePath) (e : str) (p : Z) (session : Session)
    (w : world) :
  is_Some (store w !! path) ->
  Forall (processable (store w) path) (find_ont_plex_info session e p) ->
  annotate_results_collection path e p session w =
  let cs := instrument_call path e p
              :: (find_ont_plex_info session e p ≫= routed_calls path) in
  (Return tt, mkWorld (apply_calls cs (store w)) (calls w ++ cs)).
Proof.
  intros Hroot Hall. rewrite annotate_results_collection_plan. cbn zeta.
  rewrite plan_well_formed
    by (eapply List.Forall_impl; [apply processable_well_formed | exact Hall]).
  rewrite run_plan_attempt. cbn [fst snd].
  rewrite attempt_all_exist.
  - now rewrite app_nil_r.
  - constructor; [exact Hroot | now apply bind_routed_calls_exist].
Qed.

(** When a record's tag identifier is malformed, the annotator raises at
    that record: the records before it have been annotated, those after it
    have not. *)
Lemma annotate_malformed (path : PurePath) (e : str) (p : Z) (session : Session)
    (w : world) (pre post : list OseqFlowcell.t) (bad : OseqFlowcell.t) (t : str) :
  find_ont_plex_info session e p = pre ++ bad :: post ->
  is_Some (store w !! path) ->
  Forall (processable (store w) path) pre ->
  truthy (OseqFlowcell.tag_identifier bad) = Some t ->
  TAG_IDENTIFIER_REGEX_search t = None ->
  annotate_results_collection path e p session w =
  let cs := instrument_call path e p :: (pre ≫= routed_calls path) in
  (Raise (ValueError t), mkWorld (apply_calls cs (store w)) (calls w ++ cs)).
Proof.
  intros Heq Hroot Hall Ht Hg. rewrite annotate_results_collection_plan. cbn zeta.
  rewrite (plan_malformed path session e p pre post bad t Heq); [|
    eapply List.Forall_impl; [apply processable_well_formed | exact Hall] | exact Ht | exact Hg].
  rewrite run_plan_attempt. cbn [fst snd].
  rewrite attempt_all_exist.
  - now rewrite app_nil_r.
  - constructor; [exact Hroot | now apply bind_routed_calls_exist].
Qed.

(** ** Plex completeness *)

Lemma NoDup_fmap_reflect {A B C : Type} (f : A -> B) (g : A -> C) (l : list A) :
  (forall a b, a ∈ l -> b ∈ l -> f a = f b -> g a = g b) ->
  NoDup (g <$> l) -> NoDup (f <$> l).
Proof.
  induction l as [|a l IH]; intros Hfg Hg; [constructor|].
  rewrite fmap_cons in *. apply NoDup_cons in Hg as [Ha Hg].
  apply NoDup_cons. split.
  - intros Hin. apply list_elem_of_fmap in Hin as (b & Hab & Hb).
    apply Ha. apply list_elem_of_fmap. exists b. split; [|exact Hb].
    apply Hfg; [apply list_elem_of_here | now apply list_elem_of_further | exact Hab].
  - apply IH; [|exact Hg]. intros x y Hx Hy.
    apply Hfg; now apply list_elem_of_further.
Qed.

Lemma Forall_exists_Forall2 {A B : Type} (R : A -> B -> Prop) (l : list A) :
  Forall (fun x => exists y, R x y) l -> exists l', Forall2 R l l'.
Proof.
  induction 1 as [|x l [y Hy] _ [l' IH]].
  - exists []. constructor.
  - exists (y :: l'). now constructor.
Qed.

Lemma record_tag_index_tagged (fc : OseqFlowcell.t) (t g : str) (idx : Z) :
  truthy (OseqFlowcell.tag_identifier fc) = Some t ->
  TAG_IDENTIFIER_REGEX_search t = Some g ->
  int g = Return idx ->
  record_tag_index fc = Some idx.
Proof.
  intros Ht Hg Hi. unfold record_tag_index, tag_index. now rewrite Ht, Hg, Hi.
Qed.

(** Two records that share a barcode sub-collection share a tag index. *)
Lemma same_target_same_index (path : PurePath) (a b : OseqFlowcell.t)
    (coll : PurePath) :
  barcode_target path a = Some coll -> barcode_target path b = Some coll ->
  record_tag_index a = record_tag_index b.
Proof.
  intros Ha Hb.
  apply barcode_target_inv in Ha as (ta & ga & ia & Hta & Hga & Hia & ->).
  apply barcode_target_inv in Hb as (tb & gb & ib & Htb & Hgb & Hib & Heq).
  rewrite (record_tag_index_tagged a ta ga ia Hta Hga Hia),
          (record_tag_index_tagged b tb gb ib Htb Hgb Hib).
  unfold joinpath in Heq. apply app_inv_head in Heq. injection Heq as Heq.
  apply int_Return in Hia as [_ ->]. apply int_Return in Hib as [_ ->].
  rewrite <- (int_value_zfill 2 ga), <- (int_value_zfill 2 gb), Heq. reflexivity.
Qed.

(** C1 (as amended). When the root collection exists and each of the N
    records of the plex query is tagged with a well-formed identifier whose
    barcode sub-collection exists, the annotator returns, and after the
    instrument call it makes the calls of exactly N targets in query
    order: the target of a record is the root path joined with the barcode
    name of that record's identifier, and it receives that record's tag
    index, study tags, sample tags and grant. The targets are pairwise
    distinct when the tag indices of the records are. When the query
    returns a single record that is not tagged, the one target is the root
    path. *)
Theorem plex_completeness (path : PurePath) (e : str) (p : Z) (session : Session)
    (w : world) :
  is_Some (store w !! path) ->
  (Forall (plexed (store w) path) (find_ont_plex_info session e p) ->
   exists targets : list PurePath,
     length targets = length (find_ont_plex_info session e p) /\
     Forall2 (fun fc tgt =>
                exists t name idx,
                  OseqFlowcell.tag_identifier fc = Some t /\
                  barcode_name t = Return name /\
                  tag_index t = Return idx /\
                  tgt = joinpath path name /\
                  routed_calls path fc = barcode_calls tgt idx fc)
             (find_ont_plex_info session e p) targets /\
     annotate_results_collection path e p session w =
       (Return tt,
        mkWorld
          (apply_calls (instrument_call path e p
                          :: (find_ont_plex_info session e p ≫= routed_calls path))
                       (store w))
          (calls w ++ instrument_call path e p
                   :: (find_ont_plex_info session e p ≫= routed_calls path))) /\
     (NoDup (record_tag_index <$> find_ont_plex_info session e p) -> NoDup targets))
  /\
  (forall fc,
     find_ont_plex_info session e p = [fc] -> tagged fc = false ->
     annotate_results_collection path e p session w =
       (Return tt,
        mkWorld
          (apply_calls (instrument_call path e p :: sample_study_calls path fc)
                       (store w))
          (calls w ++ instrument_call path e p :: sample_study_calls path fc))).
Proof.
  intros Hroot. split.
  - intros Hall.
    destruct (Forall_exists_Forall2
                (fun fc tgt => barcode_target path fc = Some tgt)
                (find_ont_plex_info session e p)) as [targets Htargets].
    { eapply List.Forall_impl; [|exact Hall]. intros fc (coll & Hc & _). eauto. }
    exists targets. split; [symmetry; eapply Forall2_length; exact Htargets|].
    split; [|split].
    + eapply Forall2_impl; [exact Htargets|]. intros fc tgt Hc. simpl in Hc.
      destruct (barcode_target_inv _ _ _ Hc) as (t & g & ix & Ht & Hg & Hi & ->).
      exists t, ("barcode" ++ zfill 2 g), ix.
      apply truthy_Some in Ht as Ht'. destruct Ht' as [Htag _].
      unfold barcode_name, tag_index. rewrite Hg.
      repeat split; [exact Htag | exact Hi | now apply (routed_calls_tagged path fc t g ix)].
    + apply annotate_routed; [exact Hroot|].
      eapply List.Forall_impl; [apply plexed_processable | exact Hall].
    + intros Hnd.
      apply (NoDup_fmap_1 Some).
      replace (Some <$> targets)
        with (barcode_target path <$> find_ont_plex_info session e p).
      * apply (NoDup_fmap_reflect _ record_tag_index); [|exact Hnd].
        intros a b Ha Hb Hab.
        rewrite List.Forall_forall in Hall.
        destruct (Hall a) as (coll & Hca & _); [now apply list_elem_of_In|].
        apply (same_target_same_index path a b coll); congruence.
      * clear -Htargets. induction Htargets as [|fc tgt l l' H _ IH]; [reflexivity|].
        rewrite !fmap_cons, H, IH. reflexivity.
  - intros fc Hfc Htag.
    rewrite (annotate_routed path e p session w Hroot).
    + rewrite Hfc. cbn zeta. rewrite bind_cons.
      change (@nil OseqFlowcell.t ≫= routed_calls path) with (@nil call).
      rewrite app_nil_r.
      apply tagged_false in Htag. now rewrite (routed_calls_untagged path fc Htag).
    + rewrite Hfc. constructor; [|constructor]. intros Ht. congruence.
Qed.

Lemma plex_completeness_witness :
  (annotate_results_collection ["run"] "multiplexed_experiment_001" 1
     [flowcell (Some "ONT_EXP-012-01") "sample 1";
      flowcell (Some "ONT_EXP-012-02") "sample 2"]
     (zone [["run"]; ["run"; "barcode01"]; ["run"; "barcode02"]])).1
  = Return tt.
Proof.
  destruct (plex_completeness ["run"] "multiplexed_experiment_001" 1
     [flowcell (Some "ONT_EXP-012-01") "sample 1";
      flowcell (Some "ONT_EXP-012-02") "sample 2"]
     (zone [["run"]; ["run"; "barcode01"]; ["run"; "barcode02"]]))
    as [H _].
  - vm_compute. eauto.
  - destruct H as (targets & _ & _ & Hrun & _).
    + change (find_ont_plex_info _ _ _)
        with [flowcell (Some "ONT_EXP-012-01") "sample 1";
              flowcell (Some "ONT_EXP-012-02") "sample 2"].
      repeat constructor.
      * exists ["run"; "barcode01"]. split; [reflexivity | vm_compute; eauto].
      * exists ["run"; "barcode02"]. split; [reflexivity | vm_compute; eauto].
    + rewrite Hrun. reflexivity.
Defined.

(** C1 (as stated) fails: two records with distinct tag identifiers can
    share a barcode name, so two records resolve to one target. *)
Lemma colliding_barcode_names :
  barcode_target ["run"] (flowcell (Some "A-1") "sample 1")
    = Some ["run"; "barcode01"] /\
  barcode_target ["run"] (flowcell (Some "B-01") "sample 2")
    = Some ["run"; "barcode01"] /\
  (annotate_results_collection ["run"] "multiplexed_experiment_001" 1
     [flowcell (Some "A-1") "sample 1"; flowcell (Some "B-01") "sample 2"]
     (zone [["run"]; ["run"; "barcode01"]])).1 = Return tt /\
  call_target <$>
    calls (annotate_results_collection ["run"] "multiplexed_experiment_001" 1
             [flowcell (Some "A-1") "sample 1"; flowcell (Some "B-01") "sample 2"]
             (zone [["run"]; ["run"; "barcode01"]])).2
  = [ ["run"];
      ["run"; "barcode01"]; ["run"; "barcode01"];
      ["run"; "barcode01"]; ["run"; "barcode01"];
      ["run"; "barcode01"]; ["run"; "barcode01"];
      ["run"; "barcode01"]; ["run"; "barcode01"] ].
Proof. repeat split; vm_compute; reflexivity. Qed.

(** ** Mixed and malformed records *)

(** C3 (as amended). When the records of one (experiment, position) mix
    presence and absence of a tag identifier, the annotator raises no
    inconsistency: provided the root collection exists and each tagged record
    has a well-formed identifier whose barcode sub-collection exists, it
    returns, having annotated the root collection with the sample/study
    pair of each record that is not tagged and the barcode sub-collection
    of each tagged record with that record's pair, in query order. *)
Theorem mixed_records_are_routed (path : PurePath) (e : str) (p : Z)
    (session : Session) (w : world) :
  Exists (fun fc => OseqFlowcell.tag_identifier fc = None)
         (find_ont_plex_info session e p) ->
  Exists (fun fc => is_Some (OseqFlowcell.tag_identifier fc))
         (find_ont_plex_info session e p) ->
  is_Some (store w !! path) ->
  Forall (processable (store w) path) (find_ont_plex_info session e p) ->
  annotate_results_collection path e p session w =
    (Return tt,
     mkWorld
       (apply_calls (instrument_call path e p
                       :: (find_ont_plex_info session e p ≫= routed_calls path))
                    (store w))
       (calls w ++ instrument_call path e p
                :: (find_ont_plex_info session e p ≫= routed_calls path))).
Proof.
  intros _ _ Hroot Hall. now apply annotate_routed.
Qed.

Lemma mixed_records_are_routed_witness :
  (annotate_results_collection ["run"] "multiplexed_experiment_001" 1
     [flowcell (Some "ONT_EXP-012-01") "sample 2"; flowcell None "sample 1"]
     (zone [["run"]; ["run"; "barcode01"]])).1
  = Return tt.
Proof.
  rewrite (mixed_records_are_routed ["run"] "multiplexed_experiment_001" 1
     [flowcell (Some "ONT_EXP-012-01") "sample 2"; flowcell None "sample 1"]
     (zone [["run"]; ["run"; "barcode01"]])).
  - reflexivity.
  - apply Exists_cons_hd. reflexivity.
  - apply Exists_cons_tl, Exists_cons_hd. vm_compute. eauto.
  - vm_compute. eauto.
  - change (find_ont_plex_info _ _ _)
      with [flowcell None "sample 1"; flowcell (Some "ONT_EXP-012-01") "sample 2"].
    repeat constructor.
    + intros Ht. discriminate Ht.
    + intros _. exists ["run"; "barcode01"]. split; [reflexivity | vm_compute; eauto].
Defined.

(** C3 (as stated) fails: with one record without a tag identifier and one
    with, the annotator returns normally, having annotated the root and
    the barcode sub-collection. *)
Lemma mixed_records_do_not_abort :
  (annotate_results_collection ["run"] "multiplexed_experiment_001" 1
     [flowcell (Some "X-01") "sample 2"; flowcell None "sample 1"]
     (zone [["run"]; ["run"; "barcode01"]])).1 = Return tt /\
  call_target <$>
    calls (annotate_results_collection ["run"] "multiplexed_experiment_001" 1
             [flowcell (Some "X-01") "sample 2"; flowcell None "sample 1"]
             (zone [["run"]; ["run"; "barcode01"]])).2
  = [ ["run"]; ["run"]; ["run"]; ["run"];
      ["run"; "barcode01"]; ["run"; "barcode01"];
      ["run"; "barcode01"]; ["run"; "barcode01"] ].
Proof. split; vm_compute; reflexivity. Qed.

(** C4 (as amended). Let a record of the plex query carry a malformed tag
    identifier and be the first record in query order that the codec does
    not accept. Then the annotator never returns, and it attempts nothing
    for that record or for any record after it, well-formed or not: it
    makes the instrument call and the calls of the records before it, up to
    the first call on a collection that does not exist. If there is such a
    call it raises the storage error for that collection; otherwise it
    raises [ValueError] for the malformed identifier. In particular, when
    the root collection and the barcode sub-collections of the records
    before it exist, it raises that [ValueError], and the records before it
    have been annotated and stay so. *)
Theorem malformed_identifier_aborts (path : PurePath) (e : str) (p : Z)
    (session : Session) (w : world)
    (pre post : list OseqFlowcell.t) (bad : OseqFlowcell.t) (t : str) :
  find_ont_plex_info session e p = pre ++ bad :: post ->
  Forall well_formed pre ->
  OseqFlowcell.tag_identifier bad = Some t -> t <> "" ->
  barcode_name t = Raise (ValueError t) ->
  let cs := instrument_call path e p :: (pre ≫= routed_calls path) in
  let made := (attempt (store w) cs).1 in
  let failed := (attempt (store w) cs).2 in
  annotate_results_collection path e p session w =
    (match failed with
     | Some c => Raise (RodsError (call_target c))
     | None => Raise (ValueError t)
     end,
     mkWorld (apply_calls made (store w)) (calls w ++ made ++ option_list failed))
  /\ made ++ option_list failed `prefix_of` cs
  /\ (is_Some (store w !! path) ->
      Forall (processable (store w) path) pre ->
      annotate_results_collection path e p session w =
        (Raise (ValueError t),
         mkWorld (apply_calls cs (store w)) (calls w ++ cs))).
Proof.
  intros Heq Hwf Htag Hne Hbad cs made failed.
  assert (Ht : truthy (OseqFlowcell.tag_identifier bad) = Some t)
    by (apply truthy_Some; auto).
  assert (Hg : TAG_IDENTIFIER_REGEX_search t = None).
  { unfold barcode_name in Hbad.
    destruct (TAG_IDENTIFIER_REGEX_search t); [discriminate | reflexivity]. }
  split; [|split].
  - rewrite annotate_results_collection_plan. cbn zeta.
    rewrite (plan_malformed path session e p pre post bad t Heq Hwf Ht Hg).
    rewrite run_plan_attempt. cbn [fst snd]. fold cs. subst made failed.
    destruct (attempt (store w) cs) as [ok [c|]]; reflexivity.
  - subst made failed. destruct (attempt_prefix (store w) cs) as [rest Hrest].
    exists rest. now rewrite <- app_assoc.
  - intros Hroot Hall.
    now apply (annotate_malformed path e p session w pre post bad t).
Qed.

Lemma malformed_identifier_aborts_witness :
  (annotate_results_collection ["run"] "multiplexed_experiment_001" 1
     [flowcell (Some "z-02") "sample 2"; flowcell (Some "no-digits-here") "sample 1";
      flowcell (Some "a-01") "sample 3"]
     (zone [["run"]; ["run"; "barcode01"]; ["run"; "barcode02"]])).1
  = Raise (ValueError "no-digits-here").
Proof.
  destruct (malformed_identifier_aborts ["run"] "multiplexed_experiment_001" 1
     [flowcell (Some "z-02") "sample 2"; flowcell (Some "no-digits-here") "sample 1";
      flowcell (Some "a-01") "sample 3"]
     (zone [["run"]; ["run"; "barcode01"]; ["run"; "barcode02"]])
     [flowcell (Some "a-01") "sample 3"] [flowcell (Some "z-02") "sample 2"]
     (flowcell (Some "no-digits-here") "sample 1") "no-digits-here")
    as (_ & _ & H).
  - reflexivity.
  - repeat constructor. intros t [= <-]. exists "01", 1. split; reflexivity.
  - reflexivity.
  - discriminate.
  - reflexivity.
  - rewrite H.
    + reflexivity.
    + vm_compute. eauto.
    + repeat constructor. intros _. exists ["run"; "barcode01"].
      split; [reflexivity | vm_compute; eauto].
Defined.

(** C4 (as stated) fails: the well-formed sibling that follows the
    malformed record in query order is not annotated, although its barcode
    sub-collection exists. *)
Lemma sibling_after_malformed_not_annotated :
  barcode_target ["run"] (flowcell (Some "z-02") "sample 2")
    = Some ["run"; "barcode02"] /\
  (annotate_results_collection ["run"] "multiplexed_experiment_001" 1
     [flowcell (Some "z-02") "sample 2"; flowcell (Some "no-digits-here") "sample 1"]
     (zone [["run"]; ["run"; "barcode02"]])).1
    = Raise (ValueError "no-digits-here") /\
  calls (annotate_results_collection ["run"] "multiplexed_experiment_001" 1
           [flowcell (Some "z-02") "sample 2";
            flowcell (Some "no-digits-here") "sample 1"]
           (zone [["run"]; ["run"; "barcode02"]])).2
    = [ instrument_call ["run"] "multiplexed_experiment_001" 1 ].
Proof. repeat split; vm_compute; reflexivity. Qed.

(** The storage error comes first when a record before the malformed one
    has no barcode sub-collection: nothing is annotated but the root, and
    the [ValueError] is never reached. *)
Lemma malformed_after_missing_collection :
  (annotate_results_collection ["run"] "multiplexed_experiment_001" 1
     [flowcell (Some "a-01") "sample 1"; flowcell (Some "no-digits-here") "sample 2"]
     (zone [["run"]])).1
    = Raise (RodsError ["run"; "barcode01"]) /\
  call_target <$>
    calls (annotate_results_collection ["run"] "multiplexed_experiment_001" 1
             [flowcell (Some "a-01") "sample 1";
              flowcell (Some "no-digits-here") "sample 2"]
             (zone [["run"]])).2
    = [ ["run"]; ["run"; "barcode01"] ].
Proof. split; vm_compute; reflexivity. Qed.

(** ** Records with an empty tag identifier *)

(** The plex query lists the records that are not tagged, then the tagged
    ones. *)
Lemma tagged_mono_partition (l : list OseqFlowcell.t) :
  Sorted tagged_mono l ->
  exists U T, l = U ++ T /\
              Forall (fun fc => tagged fc = false) U /\
              Forall (fun fc => tagged fc = true) T.
Proof.
  induction l as [|fc l IH]; intros Hs.
  - exists [], []. repeat split; constructor.
  - destruct (tagged fc) eqn:Htag.
    + exists [], (fc :: l). repeat split; [constructor|].
      constructor; [exact Htag | now apply (tagged_mono_rest fc)].
    + destruct IH as (U & T & -> & HU & HT); [now inversion Hs|].
      exists (fc :: U), T. repeat split; [now constructor | exact HT].
Qed.

Lemma attempt_app_exist (st : gmap PurePath node) (a b : list call) :
  Forall (fun c => is_Some (st !! call_target c)) a ->
  attempt st (a ++ b) = (a ++ (attempt st b).1, (attempt st b).2).
Proof.
  induction 1 as [|c a [n Hc] _ IH]; simpl.
  - now destruct (attempt st b).
  - rewrite Hc, IH. reflexivity.
Qed.

(** Every call of the loop is on the collection bound on entry or on the
    barcode sub-collection of a tagged record. *)
Lemma plan_targets (path : PurePath) (l : list OseqFlowcell.t) :
  forall (coll : PurePath) (c : call),
    c ∈ (plan path coll l).1 ->
    call_target c = coll \/
    exists fc, fc ∈ l /\ tagged fc = true /\
               barcode_target path fc = Some (call_target c).
Proof.
  induction l as [|fc l IH]; intros coll c; cbn [plan].
  - intros Hc. now apply elem_of_nil in Hc.
  - destruct (truthy (OseqFlowcell.tag_identifier fc)) as [t|] eqn:Ht.
    + destruct (TAG_IDENTIFIER_REGEX_search t) as [g|] eqn:Hg;
        [|intros Hc; now apply elem_of_nil in Hc].
      destruct (int g) as [idx|x] eqn:Hi;
        [|intros Hc; now apply elem_of_nil in Hc].
      specialize (IH (joinpath path ("barcode" ++ zfill 2 g)) c).
      destruct (plan path _ l) as [cs e]. cbn [fst] in *.
      assert (Hfc : tagged fc = true /\
                    barcode_target path fc
                    = Some (joinpath path ("barcode" ++ zfill 2 g))).
      { split; [apply tagged_true; eauto|].
        unfold barcode_target, barcode_name, tag_index. now rewrite Ht, Hg, Hi. }
      intros Hc. right. apply elem_of_app in Hc as [Hc | Hc].
      * exists fc. split; [apply list_elem_of_here|].
        assert (Htgt : call_target c = joinpath path ("barcode" ++ zfill 2 g)).
        { unfold barcode_calls, sample_study_calls in Hc.
          repeat (apply elem_of_cons in Hc as [-> | Hc]); try reflexivity.
          now apply elem_of_nil in Hc. }
        rewrite Htgt. exact Hfc.
      * destruct (IH Hc) as [Htgt | (fc' & Hin & Hfc')].
        -- exists fc. split; [apply list_elem_of_here|]. rewrite Htgt. exact Hfc.
        -- exists fc'. split; [now apply list_elem_of_further | exact Hfc'].
    + specialize (IH coll c). destruct (plan path coll l) as [cs e]. cbn [fst] in *.
      intros Hc. apply elem_of_app in Hc as [Hc | Hc].
      * left. unfold sample_study_calls in Hc.
        repeat (apply elem_of_cons in Hc as [-> | Hc]); try reflexivity.
        now apply elem_of_nil in Hc.
      * destruct (IH Hc) as [Htgt | (fc' & Hin & Hfc')]; [now left | right].
        exists fc'. split; [now apply list_elem_of_further | exact Hfc'].
Qed.

(** The loop raises the [ValueError] of the codec for non-empty
    identifiers only; its other exception is the one of [int()]. *)
Lemma plan_error (path : PurePath) (l : list OseqFlowcell.t) :
  forall (coll : PurePath) (e : exn),
    (plan path coll l).2 = Some e ->
    (exists t, e = ValueError t /\ t <> "") \/ (exists g, e = ValueError_int g).
Proof.
  induction l as [|fc l IH]; intros coll e; cbn [plan]; [discriminate|].
  destruct (truthy (OseqFlowcell.tag_identifier fc)) as [t|] eqn:Ht.
  - destruct (TAG_IDENTIFIER_REGEX_search t) as [g|].
    + unfold int. destruct (int_max_str_digits <? _).
      * intros [= <-]. right. eauto.
      * specialize (IH (joinpath path ("barcode" ++ zfill 2 g)) e).
        destruct (plan path _ l) as [cs e']. exact IH.
    + intros [= <-]. left. exists t. split; [reflexivity|].
      apply truthy_Some in Ht. tauto.
  - specialize (IH coll e). destruct (plan path coll l) as [cs e']. exact IH.
Qed.

(** C10. A record of the plex query whose tag identifier is the empty
    string is treated as not multiplexed: when the root collection exists,
    the annotator makes that record's study, sample and grant calls on the
    root collection, and no [ValueError] is raised for the empty
    identifier, although deriving a barcode name from it would raise one.
    Every call of the invocation is on the root collection or on the
    barcode sub-collection of a record with a non-empty tag identifier. *)
Theorem empty_tag_annotates_root (path : PurePath) (e : str) (p : Z)
    (session : Session) (w : world) (fc : OseqFlowcell.t) :
  is_Some (store w !! path) ->
  fc ∈ find_ont_plex_info session e p ->
  OseqFlowcell.tag_identifier fc = Some "" ->
  (exists l1 l2,
     calls (annotate_results_collection path e p session w).2
     = calls w ++ l1 ++ sample_study_calls path fc ++ l2) /\
  barcode_name "" = Raise (ValueError "") /\
  (annotate_results_collection path e p session w).1 <> Raise (ValueError "") /\
  (forall c,
     c ∈ calls (annotate_results_collection path e p session w).2 ->
     c ∈ calls w \/ call_target c = path \/
     exists fc' t,
       fc' ∈ find_ont_plex_info session e p /\
       OseqFlowcell.tag_identifier fc' = Some t /\ t <> "" /\
       barcode_target path fc' = Some (call_target c)).
Proof.
  intros Hroot Hin Htag.
  rewrite annotate_results_collection_plan. cbn zeta.
  set (plex := find_ont_plex_info session e p) in *.
  rewrite run_plan_attempt. cbn [fst snd].
  destruct (attempt (store w) (instrument_call path e p :: (plan path path plex).1))
    as [ok bad] eqn:Ha.
  cbn [fst snd calls].
  split; [|split; [reflexivity|split]].
  - (* the calls for [fc] are made, on the root *)
    destruct (tagged_mono_partition plex) as (U & T & HUT & HU & HT).
    { apply find_ont_plex_info_tagged_mono. }
    assert (HfcU : fc ∈ U).
    { rewrite HUT in Hin. apply elem_of_app in Hin as [Hin | Hin]; [exact Hin|].
      rewrite List.Forall_forall in HT. apply list_elem_of_In, HT in Hin.
      apply tagged_true in Hin as [t Ht]. rewrite Htag in Ht. discriminate. }
    apply list_elem_of_split in HfcU as (U1 & U2 & ->).
    destruct (plan_split path (U1 ++ fc :: U2) T path) as [coll' Hplan].
    { rewrite <- HUT. apply find_ont_plex_info_tagged_mono. }
    { now left. }
    { eapply List.Forall_impl; [|exact HU]. intros x Hx t Ht.
      apply tagged_false in Hx. congruence. }
    rewrite HUT, Hplan in Ha. cbn [fst] in Ha.
    rewrite bind_app, bind_cons in Ha.
    assert (Hfc : routed_calls path fc = sample_study_calls path fc).
    { apply routed_calls_untagged. now rewrite Htag. }
    rewrite Hfc in Ha.
    replace (instrument_call path e p
               :: ((U1 ≫= routed_calls path)
                   ++ sample_study_calls path fc ++ (U2 ≫= routed_calls path))
                  ++ (plan path coll' T).1)
      with ((instrument_call path e p :: (U1 ≫= routed_calls path))
            ++ sample_study_calls path fc
            ++ ((U2 ≫= routed_calls path) ++ (plan path coll' T).1)) in Ha
      by (simpl; now rewrite <- !app_assoc).
    rewrite attempt_app_exist in Ha.
    2:{ constructor; [exact Hroot|].
        apply (bind_routed_calls_exist _ _ U1 Hroot).
        apply Forall_app in HU as [HU1 _].
        eapply List.Forall_impl; [|exact HU1]. intros x Hx Hx'. congruence. }
    rewrite attempt_app_exist in Ha by (repeat constructor; exact Hroot).
    injection Ha as <- <-.
    exists (instrument_call path e p :: (U1 ≫= routed_calls path)).
    exists ((attempt (store w)
               ((U2 ≫= routed_calls path) ++ (plan path coll' T).1)).1
            ++ option_list
                 (attempt (store w)
                    ((U2 ≫= routed_calls path) ++ (plan path coll' T).1)).2).
    f_equal. unfold sample_study_calls. cbn [app].
    rewrite <- app_assoc. reflexivity.
  - (* no [ValueError] for the empty identifier *)
    destruct bad as [c|]; [discriminate|].
    destruct (plan path path plex).2 as [e'|] eqn:He; [|discriminate].
    apply plan_error in He as [(t & -> & Ht) | (g & ->)]; congruence.
  - (* where the calls go *)
    intros c Hc. apply elem_of_app in Hc as [Hc | Hc]; [now left | right].
    assert (Hc' : c ∈ instrument_call path e p :: (plan path path plex).1).
    { destruct (attempt_prefix (store w)
                  (instrument_call path e p :: (plan path path plex).1)) as [rest Hrest].
      rewrite Ha in Hrest. cbn [fst snd] in Hrest. rewrite Hrest, app_assoc.
      apply elem_of_app. now left. }
    apply elem_of_cons in Hc' as [-> | Hc']; [now left|].
    apply plan_targets in Hc' as [Htgt | (fc' & Hin' & Htagged & Hbt)]; [now left|].
    right. apply tagged_true in Htagged as [t Ht]. apply truthy_Some in Ht as [Ht Hne].
    exists fc', t. auto.
Qed.

Lemma empty_tag_annotates_root_witness :
  exists l1 l2,
    calls (annotate_results_collection ["run"] "multiplexed_experiment_001" 1
             [flowcell (Some "") "sample 1"] (zone [["run"]])).2
    = calls (zone [["run"]]) ++ l1
        ++ sample_study_calls ["run"] (flowcell (Some "") "sample 1") ++ l2.
Proof.
  apply (empty_tag_annotates_root ["run"] "multiplexed_experiment_001" 1
           [flowcell (Some "") "sample 1"] (zone [["run"]])
           (flowcell (Some "") "sample 1")).
  - vm_compute. eauto.
  - apply list_elem_of_here.
  - reflexivity.
Defined.


(* ===================================================================== *)
(** ** Further properties of the warehouse queries *)
(* ===================================================================== *)

Lemma elem_of_find_recent_ont_pos (session : Session) (since : Z) (e : str) (p : Z) :
  (e, p) ∈ find_recent_ont_pos session since <->
  exists fc, fc ∈ session /\ since <= OseqFlowcell.last_updated fc /\
             OseqFlowcell.experiment_name fc = e /\
             OseqFlowcell.instrument_slot fc = p.
Proof.
  unfold find_recent_ont_pos. cbn zeta.
  rewrite (order_by_perm compare_pos), elem_of_remove_dups, list_elem_of_fmap.
  split.
  - intros [fc [Heq Hin]]. injection Heq as -> ->.
    apply list_elem_of_filter in Hin as [Hsince Hin]. eauto.
  - intros [fc (Hin & Hsince & <- & <-)]. exists fc. split; [reflexivity|].
    apply list_elem_of_filter. split; assumption.
Qed.

Lemma elem_of_find_recent_ont_expt (session : Session) (since : Z) (e : str) :
  e ∈ find_recent_ont_expt session since <->
  exists fc, fc ∈ session /\ since <= OseqFlowcell.last_updated fc /\
             OseqFlowcell.experiment_name fc = e.
Proof.
  unfold find_recent_ont_expt. cbn zeta.
  rewrite elem_of_remove_dups, list_elem_of_fmap. split.
  - intros [fc [-> Hin]]. apply list_elem_of_filter in Hin as [Hs Hin]. eauto.
  - intros [fc (Hin & Hs & <-)]. exists fc. split; [reflexivity|].
    apply list_elem_of_filter. split; assumption.
Qed.

(** X1. The recent-experiments query returns each experiment name that has
    a record updated at or after the timestamp, once, and no other name. *)
Theorem find_recent_ont_expt_spec (session : Session) (since : Z) :
  NoDup (find_recent_ont_expt session since) /\
  forall e : str,
    e ∈ find_recent_ont_expt session since <->
    exists fc, fc ∈ session /\ since <= OseqFlowcell.last_updated fc /\
               OseqFlowcell.experiment_name fc = e.
Proof.
  split; [apply NoDup_remove_dups | apply elem_of_find_recent_ont_expt].
Qed.

(** X2. The two recent-record queries agree: an experiment is recent
    exactly when one of its positions is. *)
Theorem recent_expt_iff_recent_pos (session : Session) (since : Z) (e : str) :
  e ∈ find_recent_ont_expt session since <->
  exists p : Z, (e, p) ∈ find_recent_ont_pos session since.
Proof.
  rewrite elem_of_find_recent_ont_expt. split.
  - intros [fc (Hin & Hs & <-)]. exists (OseqFlowcell.instrument_slot fc).
    apply elem_of_find_recent_ont_pos. eauto.
  - intros [p Hin]. apply elem_of_find_recent_ont_pos in Hin as [fc (Hin & Hs & <- & _)].
    eauto.
Qed.

(** A list in strictly ascending order that is included in another is a
    sublist of it. *)
Lemma sorted_subseteq_sublist {A : Type} (R : A -> A -> Prop) (l1 l2 : list A) :
  Irreflexive R -> Transitive R ->
  StronglySorted R l1 -> StronglySorted R l2 ->
  l1 ⊆ l2 -> l1 `sublist_of` l2.
Proof.
  intros Hirr Htr Hs1 Hs2. revert l1 Hs1.
  induction Hs2 as [|b l2 Hs2 IH Hb]; intros l1 Hs1 Hsub.
  - destruct l1 as [|a l1]; [constructor|].
    exfalso. eapply not_elem_of_nil, Hsub, list_elem_of_here.
  - destruct Hs1 as [|a l1 Hs1 Ha]; [apply sublist_nil_l|].
    rewrite List.Forall_forall in Ha, Hb.
    assert (Hain : a ∈ b :: l2) by apply Hsub, list_elem_of_here.
    apply elem_of_cons in Hain as [-> | Hain].
    + apply sublist_skip, IH; [exact Hs1|].
      intros x Hx. assert (Hx' : x ∈ b :: l2) by now apply Hsub, list_elem_of_further.
      apply elem_of_cons in Hx' as [-> | Hx']; [|exact Hx'].
      exfalso. apply (Hirr b). apply Ha. now apply list_elem_of_In.
    + apply sublist_cons, IH; [now constructor; [|apply List.Forall_forall]|].
      assert (Hba : R b a) by now apply Hb, list_elem_of_In.
      intros x Hx. assert (Hx' : x ∈ b :: l2) by now apply Hsub.
      apply elem_of_cons in Hx' as [-> | Hx']; [|exact Hx'].
      exfalso. apply elem_of_cons in Hx as [-> | Hx].
      * now apply (Hirr a).
      * apply (Hirr b). transitivity a; [exact Hba|]. apply Ha. now apply list_elem_of_In.
Qed.

Lemma pos_lt_irrefl : Irreflexive pos_lt.
Proof.
  intros [a1 a2] [H | [_ H]]; simpl in H.
  - rewrite string_compare_refl in H. discriminate.
  - lia.
Qed.

Lemma find_recent_ont_pos_sorted (session : Session) (since : Z) :
  StronglySorted pos_lt (find_recent_ont_pos session since).
Proof.
  unfold find_recent_ont_pos. cbn zeta.
  apply Sorted_StronglySorted; [exact pos_lt_trans|].
  apply Sorted_le_NoDup_lt.
  - apply order_by_Sorted. exact compare_pos_antisym.
  - rewrite (order_by_perm compare_pos). apply NoDup_remove_dups.
Qed.

(** X3. Moving the timestamp later only drops results: the positions
    recent since the later timestamp are, in the same order, among those
    recent since the earlier one, and likewise every experiment recent
    since the later is recent since the earlier. *)
Theorem recent_queries_antitone (session : Session) (since1 since2 : Z) :
  since1 <= since2 ->
  find_recent_ont_pos session since2 `sublist_of` find_recent_ont_pos session since1 /\
  find_recent_ont_expt session since2 ⊆ find_recent_ont_expt session since1.
Proof.
  intros Hle. split.
  - apply (sorted_subseteq_sublist pos_lt);
      [exact pos_lt_irrefl | exact pos_lt_trans
      | apply find_recent_ont_pos_sorted | apply find_recent_ont_pos_sorted |].
    intros [e p] Hin. apply elem_of_find_recent_ont_pos in Hin as [fc (Hin & Hs & He & Hp)].
    apply elem_of_find_recent_ont_pos. exists fc. repeat split; [exact Hin | lia | exact He | exact Hp].
  - intros e Hin. apply elem_of_find_recent_ont_expt in Hin as [fc (Hin & Hs & He)].
    apply elem_of_find_recent_ont_expt. exists fc. repeat split; [exact Hin | lia | exact He].
Qed.

Lemma recent_queries_antitone_witness :
  find_recent_ont_pos
    [OseqFlowcell.mk "a" 1 None None (sample_named "s") study_z 5;
     OseqFlowcell.mk "b" 2 None None (sample_named "s") study_z 9] 7
  `sublist_of`
  find_recent_ont_pos
    [OseqFlowcell.mk "a" 1 None None (sample_named "s") study_z 5;
     OseqFlowcell.mk "b" 2 None None (sample_named "s") study_z 9] 3.
Proof.
  apply (recent_queries_antitone
    [OseqFlowcell.mk "a" 1 None None (sample_named "s") study_z 5;
     OseqFlowcell.mk "b" 2 None None (sample_named "s") study_z 9] 3 7).
  lia.
Defined.

(** X5. Every pair the recent-positions query returns can be handed to the
    plex query: it then finds at least one record, one of them updated at
    or after the timestamp. *)
Theorem recent_pos_has_plex_info (session : Session) (since : Z) (e : str) (p : Z) :
  (e, p) ∈ find_recent_ont_pos session since ->
  exists fc,
    fc ∈ find_ont_plex_info session e p /\ since <= OseqFlowcell.last_updated fc.
Proof.
  intros Hin. apply elem_of_find_recent_ont_pos in Hin as [fc (Hin & Hs & He & Hp)].
  exists fc. split; [|exact Hs]. apply elem_of_find_ont_plex_info. auto.
Qed.

Lemma recent_pos_has_plex_info_witness :
  exists fc,
    fc ∈ find_ont_plex_info
           [OseqFlowcell.mk "a" 1 None None (sample_named "s") study_z 5] "a" 1
    /\ 3 <= OseqFlowcell.last_updated fc.
Proof.
  apply (recent_pos_has_plex_info
           [OseqFlowcell.mk "a" 1 None None (sample_named "s") study_z 5] 3 "a" 1).
  vm_compute. apply list_elem_of_here.
Defined.


(** ** The plex query: nothing lost, nothing added, in order *)

Lemma compare_nullable_eq (a b : option str) :
  compare_nullable a b = Eq -> a = b.
Proof.
  destruct a, b; simpl; try discriminate; [|reflexivity].
  intros H. apply compare_str_eq_iff in H. now subst.
Qed.

Lemma compare_nullable_refl (a : option str) : compare_nullable a a = Eq.
Proof. destruct a; simpl; [apply string_compare_refl | reflexivity]. Qed.

Lemma compare_nullable_lt_trans (a b c : option str) :
  compare_nullable a b = Lt -> compare_nullable b c = Lt -> compare_nullable a c = Lt.
Proof.
  destruct a, b, c; simpl; try discriminate; try reflexivity.
  apply string_compare_lt_trans.
Qed.

Lemma compare_nullable_le_trans (a b c : option str) :
  leb_of (compare_nullable a b) = true -> leb_of (compare_nullable b c) = true ->
  leb_of (compare_nullable a c) = true.
Proof.
  destruct (compare_nullable a b) eqn:Hab; [| |discriminate]; intros _.
  - apply compare_nullable_eq in Hab as ->. auto.
  - destruct (compare_nullable b c) eqn:Hbc; [| |discriminate]; intros _.
    + apply compare_nullable_eq in Hbc as <-. now rewrite Hab.
    + now rewrite (compare_nullable_lt_trans a b c Hab Hbc).
Qed.

Lemma tags_le_trans : Transitive tags_le.
Proof.
  intros a b c. unfold tags_le.
  destruct (compare_nullable (OseqFlowcell.tag_identifier a)
                             (OseqFlowcell.tag_identifier b)) eqn:Hab;
    [| |discriminate]; cbn [lex].
  - apply compare_nullable_eq in Hab. rewrite Hab.
    destruct (compare_nullable (OseqFlowcell.tag_identifier b)
                               (OseqFlowcell.tag_identifier c)) eqn:Hbc;
      [| |discriminate]; cbn [lex]; [|reflexivity].
    apply compare_nullable_le_trans.
  - intros _.
    destruct (compare_nullable (OseqFlowcell.tag_identifier b)
                               (OseqFlowcell.tag_identifier c)) eqn:Hbc;
      [| |discriminate]; cbn [lex]; intros _.
    + apply compare_nullable_eq in Hbc. rewrite <- Hbc, Hab. reflexivity.
    + now rewrite (compare_nullable_lt_trans _ _ _ Hab Hbc).
Qed.

Lemma compare_plex_tags_le (a b : OseqFlowcell.t) :
  OseqFlowcell.experiment_name a = OseqFlowcell.experiment_name b ->
  OseqFlowcell.instrument_slot a = OseqFlowcell.instrument_slot b ->
  cmp_le compare_plex a b -> tags_le a b.
Proof.
  intros He Hp. unfold cmp_le, compare_plex, tags_le.
  now rewrite He, Hp, string_compare_refl, Z.compare_refl.
Qed.

(** X4. The plex query returns exactly the records of the given experiment
    and position, each as often as the table holds it, in ascending order
    of tag identifier and then of second tag identifier, NULL first. *)
Theorem find_ont_plex_info_spec (session : Session) (e : str) (p : Z) :
  find_ont_plex_info session e p
    ≡ₚ filter (fun fc => OseqFlowcell.experiment_name fc = e
                         /\ OseqFlowcell.instrument_slot fc = p) session /\
  StronglySorted tags_le (find_ont_plex_info session e p).
Proof.
  split; [apply (order_by_perm compare_plex)|].
  apply Sorted_StronglySorted; [exact tags_le_trans|].
  apply (Sorted_impl_Forall (cmp_le compare_plex) tags_le
           (fun fc => OseqFlowcell.experiment_name fc = e
                      /\ OseqFlowcell.instrument_slot fc = p)).
  - intros a b [Ha1 Ha2] [Hb1 Hb2]. apply compare_plex_tags_le; congruence.
  - apply Forall_forall. intros fc Hin.
    apply elem_of_find_ont_plex_info in Hin. tauto.
  - apply order_by_Sorted. exact compare_plex_antisym.
Qed.


(* ===================================================================== *)
(** ** Further properties of the identifier codec *)
(* ===================================================================== *)

(** Among the digits 0-9, the value tells the digit. *)
Lemma digit_value_inj (a b : N) :
  is_ascii_digit a = true -> is_ascii_digit b = true ->
  digit_value a = digit_value b -> a = b.
Proof.
  intros Ha Hb. apply is_ascii_digit_spec in Ha as [_ ->].
  apply is_ascii_digit_spec in Hb as [_ ->]. lia.
Qed.

Lemma int_from_nonneg (s : str) (acc : Z) :
  0 <= acc -> 0 <= int_from acc s.
Proof.
  revert acc. induction s as [|c s IH]; intros acc Hacc; [exact Hacc|].
  cbn [int_from]. apply IH. pose proof (digit_value_bounds c). lia.
Qed.

Lemma int_value_nonneg (s : str) : 0 <= int_value s.
Proof. apply int_from_nonneg. lia. Qed.

Lemma all_digits_zeros (n : nat) : all_digits (zeros n) = true.
Proof. induction n as [|n IH]; [reflexivity | exact IH]. Qed.

Lemma length_zeros (n : nat) : length (zeros n) = n.
Proof. induction n as [|n IH]; [reflexivity | simpl; now rewrite IH]. Qed.

Lemma length_zfill (w : nat) (s : str) :
  length (zfill w s) = Nat.max w (length s).
Proof. unfold zfill. rewrite length_app, length_zeros. lia. Qed.

Lemma digits_zfill (w : nat) (s : str) :
  digits s = true -> digits (zfill w s) = true.
Proof.
  intros H. assert (Hall : all_digits (zfill w s) = true).
  { unfold zfill. rewrite all_digits_app, all_digits_zeros. now apply digits_all. }
  destruct (zfill w s) as [|c z] eqn:Hz; [|exact Hall].
  assert (Hlen : length (zfill w s) = 0%nat) by now rewrite Hz.
  rewrite length_zfill in Hlen. destruct s; [discriminate | simpl in Hlen; lia].
Qed.

(** X6. The barcode name encodes the tag index: whenever [barcode_name]
    returns, its result is "barcode" followed by at least two decimal
    digits, which denote a number that is never negative. When the digits
    are at most 4300, [tag_index] returns that number for the same
    identifier; when they are more, [tag_index] raises the [ValueError] of
    [int()] although [barcode_name] returned. *)
Theorem barcode_name_encodes_tag_index (s name : str) :
  barcode_name s = Return name ->
  exists d : str,
    name = "barcode" ++ d /\ digits d = true /\ (2 <= length d)%nat /\
    0 <= int_value d /\
    (Z.of_nat (length d) <= 4300 -> tag_index s = Return (int_value d)) /\
    (4300 < Z.of_nat (length d) -> tag_index s = Raise (ValueError_int d)).
Proof.
  unfold barcode_name, tag_index.
  destruct (TAG_IDENTIFIER_REGEX_search s) as [g|] eqn:Hs; [|discriminate].
  intros [= <-]. apply search_sound in Hs as [Hg _].
  exists (zfill 2 g). split; [reflexivity|].
  split; [now apply digits_zfill|].
  pose proof (length_zfill 2 g) as Hlen.
  split; [lia|]. split; [apply int_value_nonneg|]. split.
  - intros H. rewrite int_value_zfill. apply int_short. lia.
  - intros H. rewrite zfill_long by lia. apply int_long.
    rewrite zfill_long in H by lia. exact H.
Qed.

Lemma barcode_name_encodes_tag_index_witness :
  exists d : str,
    "barcode07" = "barcode" ++ d /\ digits d = true /\ (2 <= length d)%nat /\
    0 <= int_value d /\
    (Z.of_nat (length d) <= 4300 -> tag_index "ONT_EXP-012-7" = Return (int_value d)) /\
    (4300 < Z.of_nat (length d) -> tag_index "ONT_EXP-012-7" = Raise (ValueError_int d)).
Proof.
  apply (barcode_name_encodes_tag_index "ONT_EXP-012-7" "barcode07"). reflexivity.
Defined.

Lemma ascii_digits_forallb (s : str) :
  ascii_digits s = true -> forallb is_ascii_digit s = true.
Proof. destruct s; [discriminate | auto]. Qed.

Lemma forallb_ascii_zfill (w : nat) (s : str) :
  forallb is_ascii_digit s = true -> forallb is_ascii_digit (zfill w s) = true.
Proof.
  intros H. unfold zfill. rewrite forallb_app, H, andb_true_r.
  induction (w - length s)%nat as [|n IH]; [reflexivity | exact IH].
Qed.

Lemma two_digits_inj (a b : str) :
  forallb is_ascii_digit a = true -> forallb is_ascii_digit b = true ->
  length a = 2%nat -> length b = 2%nat ->
  int_value a = int_value b -> a = b.
Proof.
  destruct a as [|a1 [|a2 [|? ?]]]; try discriminate.
  destruct b as [|b1 [|b2 [|? ?]]]; try discriminate.
  cbn [forallb]. intros Ha Hb _ _.
  apply andb_true_iff in Ha as [Ha1 Ha]. apply andb_true_iff in Ha as [Ha2 _].
  apply andb_true_iff in Hb as [Hb1 Hb]. apply andb_true_iff in Hb as [Hb2 _].
  unfold int_value. cbn [int_from].
  pose proof (digit_value_bounds a1). pose proof (digit_value_bounds a2).
  pose proof (digit_value_bounds b1). pose proof (digit_value_bounds b2).
  intros Heq.
  assert (He1 : digit_value a1 = digit_value b1) by lia.
  assert (He2 : digit_value a2 = digit_value b2) by lia.
  apply digit_value_inj in He1, He2; try assumption. now subst.
Qed.

(** X7. For tag indices written with one or two of the digits 0-9 the
    barcode name depends on the index alone: two identifiers whose digit
    runs have at most two digits and denote the same number get the same
    barcode name, whatever their prefixes. *)
Theorem short_tag_index_determines_barcode_name (pa da pb db : str) :
  ascii_digits da = true -> ascii_digits db = true ->
  (length da <= 2)%nat -> (length db <= 2)%nat ->
  int da = int db ->
  barcode_name (pa ++ "-" ++ da) = barcode_name (pb ++ "-" ++ db).
Proof.
  intros Hda Hdb Hla Hlb Hint. unfold barcode_name.
  pose proof (search_suffix pa da "" (ascii_digits_digits da Hda) (or_introl eq_refl)) as Ha.
  pose proof (search_suffix pb db "" (ascii_digits_digits db Hdb) (or_introl eq_refl)) as Hb.
  rewrite app_nil_r in Ha, Hb. rewrite Ha, Hb. do 2 f_equal.
  rewrite !int_short in Hint by lia. injection Hint as Hint.
  apply two_digits_inj.
  - now apply forallb_ascii_zfill, ascii_digits_forallb.
  - now apply forallb_ascii_zfill, ascii_digits_forallb.
  - rewrite length_zfill. lia.
  - rewrite length_zfill. lia.
  - now rewrite !int_value_zfill.
Qed.

Lemma short_tag_index_determines_barcode_name_witness :
  barcode_name ("ONT_EXP-012" ++ "-" ++ "07")
  = barcode_name ("ONT-Tag-Identifier" ++ "-" ++ "7").
Proof.
  apply short_tag_index_determines_barcode_name; [reflexivity | reflexivity | | | reflexivity].
  - simpl. lia.
  - simpl. lia.
Defined.

(** X8. Beyond two digits the barcode name is not a function of the tag
    index: a leading zero in front of a run of two or more digits changes
    the barcode name, and leaves the tag index as it is as long as the
    longer run is within the 4300 digits that [int()] accepts. On a run of
    exactly 4300 digits the leading zero turns the tag index into the
    [ValueError] of [int()]. *)
Theorem leading_zero_changes_barcode_name (p ds : str) :
  digits ds = true -> (2 <= length ds)%nat ->
  barcode_name (p ++ "-" ++ "0" ++ ds) <> barcode_name (p ++ "-" ++ ds) /\
  (Z.of_nat (length ds) < 4300 ->
   tag_index (p ++ "-" ++ "0" ++ ds) = tag_index (p ++ "-" ++ ds) /\
   tag_index (p ++ "-" ++ ds) = Return (int_value ds)) /\
  (Z.of_nat (length ds) = 4300 ->
   tag_index (p ++ "-" ++ ds) = Return (int_value ds) /\
   tag_index (p ++ "-" ++ "0" ++ ds) = Raise (ValueError_int ("0" ++ ds))).
Proof.
  intros Hds Hlen.
  assert (Hds0 : digits ("0" ++ ds) = true).
  { apply digits_all in Hds. exact Hds. }
  pose proof (search_suffix p ds "" Hds (or_introl eq_refl)) as Ha.
  pose proof (search_suffix p ("0" ++ ds) "" Hds0 (or_introl eq_refl)) as Hb.
  rewrite app_nil_r in Ha, Hb.
  unfold tag_index, barcode_name. rewrite Ha, Hb.
  assert (Hl0 : length ("0" ++ ds) = S (length ds)) by reflexivity.
  split; [|split].
  - rewrite !zfill_long by (rewrite ?Hl0; lia). intros [= Heq].
    apply (f_equal length) in Heq. simpl in Heq. lia.
  - intros H. rewrite !int_short by (rewrite ?Hl0; lia). split; reflexivity.
  - intros H. rewrite int_short by lia.
    rewrite int_long by (rewrite Hl0; lia). split; reflexivity.
Qed.

Lemma leading_zero_changes_barcode_name_witness :
  barcode_name ("x" ++ "-" ++ "0" ++ "12") <> barcode_name ("x" ++ "-" ++ "12") /\
  tag_index ("x" ++ "-" ++ "0" ++ "12") = tag_index ("x" ++ "-" ++ "12").
Proof.
  destruct (leading_zero_changes_barcode_name "x" "12") as (H1 & H2 & _);
    [reflexivity | simpl; lia |].
  split; [exact H1 | apply H2; simpl; lia].
Defined.


(* ===================================================================== *)
(** ** The metadata vocabularies and the derived tags *)
(* ===================================================================== *)

(** X9. The vocabularies are unique, as their [@unique] decorators demand:
    no two members of one vocabulary share an attribute name. Moreover no
    sample attribute is a study attribute, and neither vocabulary contains
    "tag_index". *)
Theorem vocabularies_unique :
  (forall a b, TrackedSample.value a = TrackedSample.value b -> a = b) /\
  (forall a b, TrackedStudy.value a = TrackedStudy.value b -> a = b) /\
  (forall a b, ONTInstrument.value a = ONTInstrument.value b -> a = b) /\
  (forall a b, TrackedSample.value a <> TrackedStudy.value b) /\
  (forall a, TrackedSample.value a <> "tag_index") /\
  (forall b, TrackedStudy.value b <> "tag_index").
Proof.
  repeat split.
  - intros [] []; simpl; intros H; first [reflexivity | discriminate H].
  - intros [] []; simpl; intros H; first [reflexivity | discriminate H].
  - intros [] []; simpl; intros H; first [reflexivity | discriminate H].
  - intros [] []; simpl; discriminate.
  - intros []; simpl; discriminate.
  - intros []; simpl; discriminate.
Qed.

(** The attributes of the tags kept by the filtered [starmap] are, in
    order, among the attributes of the pairs it was given. *)
Lemma starmap_filter_attributes (av : list (str * option pyval)) :
  avu_attribute <$> starmap_filter av `sublist_of` av.*1.
Proof.
  unfold starmap_filter. induction av as [|[a [v|]] av IH]; simpl.
  - constructor.
  - now apply sublist_skip.
  - now apply sublist_cons.
Qed.

Lemma starmap_filter_length (av : list (str * option pyval)) :
  (length (starmap_filter av) <= length av)%nat.
Proof.
  rewrite <- (length_fmap avu_attribute), <- (length_fmap fst av).
  apply sublist_length, starmap_filter_attributes.
Qed.

Lemma starmap_filter_namespace (av : list (str * option pyval)) :
  Forall (fun avu => avu_namespace avu = "") (starmap_filter av).
Proof.
  apply Forall_forall. intros avu Hin.
  apply elem_of_starmap_filter in Hin as (a & v & _ & ->). reflexivity.
Qed.

Lemma derived_tags_attributes (idx : Z) (fc : OseqFlowcell.t) :
  avu_attribute <$> derived_tags idx fc
  `sublist_of`
  [ "tag_index"; "study_id"; "study"; "study_accession_number";
    "sample_id"; "sample"; "sample_accession_number"; "sample_donor_id";
    "sample_supplier_name"; "sample_consent_withdrawn" ].
Proof.
  unfold derived_tags. rewrite fmap_cons, fmap_app.
  apply sublist_skip.
  apply (sublist_app _ [ "study_id"; "study"; "study_accession_number" ] _
           [ "sample_id"; "sample"; "sample_accession_number"; "sample_donor_id";
             "sample_supplier_name"; "sample_consent_withdrawn" ]).
  - apply (starmap_filter_attributes
      [ (_, _); (_, _); (_, _) ]).
  - apply (starmap_filter_attributes
      [ (_, _); (_, _); (_, _); (_, _); (_, _); (_, _) ]).
Qed.

Lemma derived_tags_NoDup (idx : Z) (fc : OseqFlowcell.t) :
  NoDup (avu_attribute <$> derived_tags idx fc).
Proof.
  eapply sublist_NoDup; cycle 1; [apply derived_tags_attributes|].
  apply (bool_decide_unpack _). vm_compute. exact I.
Qed.

Lemma derived_tags_namespace (idx : Z) (fc : OseqFlowcell.t) :
  Forall (fun avu => avu_namespace avu = "") (derived_tags idx fc).
Proof.
  unfold derived_tags. constructor; [reflexivity|].
  apply Forall_app_2; apply starmap_filter_namespace.
Qed.

(** X10. The tags derived for one record never collide: the tag index, the
    study tags and the sample tags carry pairwise distinct attributes, all
    without a namespace; there are between one and three study tags (the
    study identifier is always among them) and at most six sample tags. *)
Theorem derived_tags_do_not_collide (idx : Z) (fc : OseqFlowcell.t) :
  NoDup (avu_attribute <$> derived_tags idx fc) /\
  Forall (fun avu => avu_namespace avu = "") (derived_tags idx fc) /\
  AVU_new "study_id" (VStr (Study.id_study_lims (OseqFlowcell.study fc)))
    ∈ make_study_metadata (OseqFlowcell.study fc) /\
  (1 <= length (make_study_metadata (OseqFlowcell.study fc)) <= 3)%nat /\
  (length (make_sample_metadata (OseqFlowcell.sample fc)) <= 6)%nat.
Proof.
  split; [apply derived_tags_NoDup|].
  split; [apply derived_tags_namespace|].
  assert (Hid : AVU_new "study_id" (VStr (Study.id_study_lims (OseqFlowcell.study fc)))
                  ∈ make_study_metadata (OseqFlowcell.study fc)).
  { apply elem_of_starmap_filter. eexists _, _. split; [apply list_elem_of_here | reflexivity]. }
  split; [exact Hid|]. split; [split|].
  - destruct (make_study_metadata (OseqFlowcell.study fc)); [|simpl; lia].
    now apply elem_of_nil in Hid.
  - apply (starmap_filter_length [ (_, _); (_, _); (_, _) ]).
  - apply (starmap_filter_length [ (_, _); (_, _); (_, _); (_, _); (_, _); (_, _) ]).
Qed.


(* ===================================================================== *)
(** ** What an invocation leaves alone *)
(* ===================================================================== *)

(** The annotator in terms of the calls it attempts, whatever the outcome. *)
Lemma annotate_attempt (path : PurePath) (e : str) (p : Z) (session : Session)
    (w : world) :
  annotate_results_collection path e p session w =
  let pl := plan path path (find_ont_plex_info session e p) in
  let '(ok, bad) := attempt (store w) (instrument_call path e p :: pl.1) in
  (match bad, pl.2 with
   | Some c, _ => Raise (RodsError (call_target c))
   | None, Some x => Raise x
   | None, None => Return tt
   end,
   mkWorld (apply_calls ok (store w)) (calls w ++ ok ++ option_list bad)).
Proof.
  rewrite annotate_results_collection_plan. cbn zeta. now rewrite run_plan_attempt.
Qed.

(** The zone after an invocation, node by node: the node as it was, with
    the updates of the calls that took effect, which are an initial part
    of the calls the annotator set out to make. *)
Lemma annotate_lookup (path : PurePath) (e : str) (p : Z) (session : Session)
    (w : world) (q : PurePath) :
  exists us rest,
    (instrument_call path e p
       :: (plan path path (find_ont_plex_info session e p)).1) ≫= node_updates q
    = us ++ rest /\
    store (annotate_results_collection path e p session w).2 !! q
    = (fun n => foldl apply_upd n us) <$> store w !! q.
Proof.
  rewrite annotate_attempt. cbn zeta.
  set (cs := instrument_call path e p :: _).
  destruct (attempt_ok_sublist (store w) cs) as [rest Hrest].
  destruct (attempt (store w) cs) as [ok bad]. cbn [fst snd store] in *.
  exists (ok ≫= node_updates q), (rest ≫= node_updates q). split.
  - now rewrite Hrest, bind_app.
  - apply apply_calls_lookup.
Qed.

Lemma meta_untouched (k : str * str) (us : list upd) (n : node) :
  Forall (fun u => upd_meta_key u <> Some k) us ->
  metadata (foldl apply_upd n us) !! k = metadata n !! k.
Proof.
  intros H. revert n. induction H as [|u us Hu _ IH]; intros n; [reflexivity|].
  simpl. rewrite IH. destruct u as [a|a]; simpl; [|reflexivity].
  apply lookup_insert_ne. intros Heq. apply Hu. simpl. now rewrite Heq.
Qed.

Lemma acl_untouched (user : str) (us : list upd) (n : node) :
  Forall (fun u => upd_acl_user u <> Some user) us ->
  acl (foldl apply_upd n us) !! user = acl n !! user.
Proof.
  intros H. revert n. induction H as [|u us Hu _ IH]; intros n; [reflexivity|].
  simpl. rewrite IH. destruct u as [a|a]; simpl; [reflexivity|].
  apply lookup_insert_ne. intros Heq. apply Hu. simpl. now rewrite Heq.
Qed.

Lemma meta_monotone (k : str * str) (us : list upd) (n : node) :
  is_Some (metadata n !! k) -> is_Some (metadata (foldl apply_upd n us) !! k).
Proof.
  revert n. induction us as [|u us IH]; intros n Hn; [exact Hn|].
  simpl. apply IH. destruct u as [a|a]; simpl; [|exact Hn].
  apply lookup_insert_is_Some'. now right.
Qed.

Lemma acl_monotone (user : str) (us : list upd) (n : node) :
  is_Some (acl n !! user) -> is_Some (acl (foldl apply_upd n us) !! user).
Proof.
  revert n. induction us as [|u us IH]; intros n Hn; [exact Hn|].
  simpl. apply IH. destruct u as [a|a]; simpl; [exact Hn|].
  apply lookup_insert_is_Some'. now right.
Qed.

(** A call changes nothing outside the collection it is made on and what
    lies beneath it. *)
Lemma node_updates_outside (q : PurePath) (c : call) :
  ~ call_target c `prefix_of` q -> node_updates q c = [].
Proof.
  intros Hq. destruct c as [coll avus | coll acs r]; simpl in *.
  - rewrite bool_decide_eq_false_2; [reflexivity|]. intros ->. now apply Hq.
  - unfold reaches. rewrite bool_decide_eq_false_2 by (intros ->; now apply Hq).
    rewrite (bool_decide_eq_false_2 _ Hq). now destruct r.
Qed.

Lemma barcode_target_joinpath (path : PurePath) (fc : OseqFlowcell.t)
    (coll : PurePath) :
  barcode_target path fc = Some coll -> exists name, coll = joinpath path name.
Proof.
  intros H. apply barcode_target_inv in H as (t & g & ix & _ & _ & _ & ->). eauto.
Qed.

(** Every call of an invocation is on the root or beneath it. *)
Lemma annotate_calls_beneath (path : PurePath) (e : str) (p : Z)
    (l : list OseqFlowcell.t) (c : call) :
  c ∈ instrument_call path e p :: (plan path path l).1 ->
  path `prefix_of` call_target c.
Proof.
  intros Hc. apply elem_of_cons in Hc as [-> | Hc]; [reflexivity|].
  apply plan_targets in Hc as [-> | (fc & _ & _ & Hfc)]; [reflexivity|].
  apply barcode_target_joinpath in Hfc as [name ->]. now exists [name].
Qed.

Lemma bind_nil_Forall {A B : Type} (f : A -> list B) (l : list A) :
  Forall (fun x => f x = []) l -> l ≫= f = [].
Proof.
  induction 1 as [|x l Hx _ IH]; [reflexivity|]. now rewrite bind_cons, Hx, IH.
Qed.

(** X11. An invocation, whether it returns or raises, leaves every node
    that is not the root collection or beneath it exactly as it was. *)
Theorem annotate_leaves_outside_untouched (path : PurePath) (e : str) (p : Z)
    (session : Session) (w : world) (q : PurePath) :
  ~ path `prefix_of` q ->
  store (annotate_results_collection path e p session w).2 !! q = store w !! q.
Proof.
  intros Hq. destruct (annotate_lookup path e p session w q) as (us & rest & Hus & ->).
  assert (Hnil : (instrument_call path e p
                    :: (plan path path (find_ont_plex_info session e p)).1)
                 ≫= node_updates q = []).
  { apply bind_nil_Forall, Forall_forall. intros c Hc.
    apply node_updates_outside. intros Hpre. apply Hq.
    transitivity (call_target c); [|exact Hpre].
    now apply (annotate_calls_beneath path e p (find_ont_plex_info session e p)). }
  rewrite Hnil in Hus. symmetry in Hus. apply app_eq_nil in Hus as [-> _].
  now destruct (store w !! q).
Qed.

Lemma annotate_leaves_outside_untouched_witness :
  store (annotate_results_collection ["run"] "multiplexed_experiment_001" 1
           [flowcell None "sample 1"] (zone [["run"]; ["other"]])).2 !! ["other"]
  = store (zone [["run"]; ["other"]]) !! ["other"].
Proof.
  apply annotate_leaves_outside_untouched.
  intros [k Hk]. discriminate Hk.
Defined.

(** X12. An invocation, whether it returns or raises, never deletes: it
    creates no node and removes none, and on every node each tag and each
    grant that was there before is still there afterwards, possibly with
    a new value. *)
Theorem annotate_never_deletes (path : PurePath) (e : str) (p : Z)
    (session : Session) (w : world) (q : PurePath) :
  (store w !! q = None ->
   store (annotate_results_collection path e p session w).2 !! q = None) /\
  (forall n, store w !! q = Some n ->
     exists n',
       store (annotate_results_collection path e p session w).2 !! q = Some n' /\
       (forall k, is_Some (metadata n !! k) -> is_Some (metadata n' !! k)) /\
       (forall user, is_Some (acl n !! user) -> is_Some (acl n' !! user))).
Proof.
  destruct (annotate_lookup path e p session w q) as (us & rest & _ & ->).
  split.
  - intros ->. reflexivity.
  - intros n ->. eexists. split; [reflexivity|]. split.
    + intros k. apply meta_monotone.
    + intros user. apply acl_monotone.
Qed.


(** The updates of the loop satisfy any property that the tag index tag,
    the derived tags and the derived grant of each record satisfy. *)
Lemma sample_study_calls_Forall (P : upd -> Prop) (q coll : PurePath)
    (fc : OseqFlowcell.t) :
  Forall (fun a => P (UMeta a)) (make_study_metadata (OseqFlowcell.study fc)) ->
  Forall (fun a => P (UMeta a)) (make_sample_metadata (OseqFlowcell.sample fc)) ->
  Forall (fun a => P (UAcl a))
         (make_sample_acl (OseqFlowcell.sample fc) (OseqFlowcell.study fc)) ->
  Forall P (sample_study_calls coll fc ≫= node_updates q).
Proof.
  intros Hst Hsa Ha.
  unfold sample_study_calls. rewrite !bind_cons.
  change (@nil call ≫= node_updates q) with (@nil upd). rewrite app_nil_r.
  repeat apply Forall_app_2; cbn [node_updates].
  - case_bool_decide; [now apply Forall_fmap | constructor].
  - case_bool_decide; [now apply Forall_fmap | constructor].
  - destruct (reaches coll true q); [now apply Forall_fmap | constructor].
Qed.

Lemma plan_updates_Forall (P : upd -> Prop) (q path : PurePath)
    (l : list OseqFlowcell.t) :
  (forall idx, P (UMeta (AVU_new "tag_index" (VInt idx)))) ->
  Forall (fun fc =>
    Forall (fun a => P (UMeta a)) (make_study_metadata (OseqFlowcell.study fc)) /\
    Forall (fun a => P (UMeta a)) (make_sample_metadata (OseqFlowcell.sample fc)) /\
    Forall (fun a => P (UAcl a))
           (make_sample_acl (OseqFlowcell.sample fc) (OseqFlowcell.study fc))) l ->
  forall coll, Forall P ((plan path coll l).1 ≫= node_updates q).
Proof.
  intros Hidx Hl. induction Hl as [|fc l (Hst & Hsa & Ha) _ IH]; intros coll;
    [constructor|].
  cbn [plan]. destruct (truthy (OseqFlowcell.tag_identifier fc)) as [t|].
  - destruct (TAG_IDENTIFIER_REGEX_search t) as [g|]; [|constructor].
    destruct (int g) as [idx|x]; [|constructor].
    specialize (IH (joinpath path ("barcode" ++ zfill 2 g))).
    destruct (plan path _ l) as [cs e]. cbn [fst] in *.
    rewrite bind_app. apply Forall_app_2; [|exact IH].
    unfold barcode_calls. rewrite bind_cons. apply Forall_app_2.
    + cbn [node_updates]. case_bool_decide; [|constructor].
      repeat constructor. apply Hidx.
    + now apply sample_study_calls_Forall.
  - specialize (IH coll). destruct (plan path coll l) as [cs e]. cbn [fst] in *.
    rewrite bind_app. apply Forall_app_2; [|exact IH].
    now apply sample_study_calls_Forall.
Qed.

Lemma starmap_filter_key (av : list (str * option pyval)) (avu : AVU) :
  avu ∈ starmap_filter av ->
  avu_namespace avu = "" /\ avu_attribute avu ∈ av.*1.
Proof.
  intros Hin. split.
  - apply elem_of_starmap_filter in Hin as (a & v & _ & ->). reflexivity.
  - eapply elem_of_sublist; [|apply starmap_filter_attributes].
    apply list_elem_of_fmap. eauto.
Qed.

Lemma make_study_metadata_key (study : Study.t) (avu : AVU) :
  avu ∈ make_study_metadata study ->
  (avu_namespace avu, avu_attribute avu) ∈ written_keys.
Proof.
  intros Hin. apply starmap_filter_key in Hin as [Hns Ha].
  rewrite Hns. simpl in Ha.
  unfold written_keys, derived_attributes.
  repeat (apply elem_of_cons in Ha as [-> | Ha]);
    [ | | | now apply elem_of_nil in Ha];
    apply (bool_decide_unpack _); vm_compute; exact I.
Qed.

Lemma make_sample_metadata_key (sample : Sample.t) (avu : AVU) :
  avu ∈ make_sample_metadata sample ->
  (avu_namespace avu, avu_attribute avu) ∈ written_keys.
Proof.
  intros Hin. apply starmap_filter_key in Hin as [Hns Ha].
  rewrite Hns. simpl in Ha.
  unfold written_keys, derived_attributes.
  repeat (apply elem_of_cons in Ha as [-> | Ha]);
    [ | | | | | | now apply elem_of_nil in Ha];
    apply (bool_decide_unpack _); vm_compute; exact I.
Qed.

(** X13. An invocation, whether it returns or raises, leaves unrelated
    tags and grants untouched on every node: a tag whose namespace and
    attribute are not among the twelve keys the annotator writes keeps its
    value, and so does the grant of every principal other than the "ss_"
    groups of the studies of the records of the plex query. *)
Theorem annotate_leaves_unrelated_untouched (path : PurePath) (e : str) (p : Z)
    (session : Session) (w : world) (q : PurePath) (n : node) :
  store w !! q = Some n ->
  exists n',
    store (annotate_results_collection path e p session w).2 !! q = Some n' /\
    (forall k, k ∉ written_keys -> metadata n' !! k = metadata n !! k) /\
    (forall user,
       (forall fc, fc ∈ find_ont_plex_info session e p ->
          user <> "ss_" ++ Study.id_study_lims (OseqFlowcell.study fc)) ->
       acl n' !! user = acl n !! user).
Proof.
  intros Hq. destruct (annotate_lookup path e p session w q) as (us & rest & Hus & ->).
  rewrite Hq. eexists. split; [reflexivity|].
  rewrite bind_cons in Hus. split.
  - intros k Hk. apply meta_untouched.
    assert (Hall : Forall (fun u => upd_meta_key u <> Some k) (us ++ rest)).
    { rewrite <- Hus. apply Forall_app_2.
      - unfold instrument_call. cbn [node_updates].
        case_bool_decide; [|constructor].
        repeat constructor; simpl; intros [= <-]; apply Hk;
          apply (bool_decide_unpack _); vm_compute; exact I.
      - apply plan_updates_Forall.
        + intros idx. simpl. intros [= <-]. apply Hk.
          apply (bool_decide_unpack _). vm_compute. exact I.
        + apply Forall_forall. intros fc _. repeat split.
          * apply Forall_forall. intros a Ha. simpl. intros [= <-]. apply Hk.
            now apply make_study_metadata_key in Ha.
          * apply Forall_forall. intros a Ha. simpl. intros [= <-]. apply Hk.
            now apply make_sample_metadata_key in Ha.
          * apply Forall_forall. intros a _. discriminate. }
    now apply Forall_app in Hall as [Hall _].
  - intros user Huser. apply acl_untouched.
    assert (Hall : Forall (fun u => upd_acl_user u <> Some user) (us ++ rest)).
    { rewrite <- Hus. apply Forall_app_2.
      - unfold instrument_call. cbn [node_updates].
        case_bool_decide; [|constructor]. repeat constructor; discriminate.
      - apply plan_updates_Forall.
        + intros idx. discriminate.
        + apply Forall_forall. intros fc Hfc. repeat split.
          * apply Forall_forall. intros a _. discriminate.
          * apply Forall_forall. intros a _. discriminate.
          * unfold make_sample_acl. repeat constructor. simpl.
            intros [= Heq]. apply (Huser fc Hfc). now subst user. }
    now apply Forall_app in Hall as [Hall _].
Qed.

Lemma annotate_leaves_unrelated_untouched_witness :
  exists n',
    store (annotate_results_collection ["run"] "multiplexed_experiment_001" 1
             [flowcell None "sample 1"] (zone [["run"]])).2 !! ["run"] = Some n' /\
    (forall k, k ∉ written_keys -> metadata n' !! k = metadata (mkNode ∅ ∅) !! k) /\
    (forall user,
       (forall fc, fc ∈ find_ont_plex_info [flowcell None "sample 1"]
                          "multiplexed_experiment_001" 1 ->
          user <> "ss_" ++ Study.id_study_lims (OseqFlowcell.study fc)) ->
       acl n' !! user = acl (mkNode ∅ ∅) !! user).
Proof.
  apply (annotate_leaves_unrelated_untouched ["run"] "multiplexed_experiment_001" 1
           [flowcell None "sample 1"] (zone [["run"]]) ["run"] (mkNode ∅ ∅)).
  reflexivity.
Defined.


(** X14. The consent-withdrawn tag is never cleared: when no record of the
    plex query has consent withdrawn, an invocation, whether it returns or
    raises, leaves the tag "sample_consent_withdrawn" of every node as it
    was, so a collection marked by an earlier invocation stays marked
    after consent has been given again. *)
Theorem consent_withdrawn_tag_never_cleared (path : PurePath) (e : str) (p : Z)
    (session : Session) (w : world) (q : PurePath) (n : node) :
  Forall (fun fc => Sample.consent_withdrawn (OseqFlowcell.sample fc) = false)
         (find_ont_plex_info session e p) ->
  store w !! q = Some n ->
  exists n',
    store (annotate_results_collection path e p session w).2 !! q = Some n' /\
    metadata n' !! ("", "sample_consent_withdrawn")
    = metadata n !! ("", "sample_consent_withdrawn").
Proof.
  intros Hconsent Hq.
  destruct (annotate_lookup path e p session w q) as (us & rest & Hus & ->).
  rewrite Hq. eexists. split; [reflexivity|].
  rewrite bind_cons in Hus. apply meta_untouched.
  assert (Hall : Forall (fun u => upd_meta_key u
                                  <> Some ("", "sample_consent_withdrawn"))
                        (us ++ rest)).
  { rewrite <- Hus. apply Forall_app_2.
    - unfold instrument_call. cbn [node_updates].
      case_bool_decide; [|constructor]. repeat constructor; discriminate.
    - apply plan_updates_Forall; [intros idx; discriminate|].
      eapply List.Forall_impl; [|exact Hconsent]. intros fc Hfc. repeat split.
      + apply Forall_forall. intros a Ha. simpl. intros [= Hns Hattr].
        apply starmap_filter_key in Ha as [_ Ha]. rewrite Hattr in Ha. simpl in Ha.
        repeat (apply elem_of_cons in Ha as [Ha | Ha]; [discriminate Ha|]).
        now apply elem_of_nil in Ha.
      + apply Forall_forall. intros a Ha. simpl. intros [= Hns Hattr].
        apply elem_of_starmap_filter in Ha as (x & v & Hin & ->).
        simpl in Hattr. subst x. rewrite Hfc in Hin.
        repeat (apply elem_of_cons in Hin as [Hin | Hin]; [discriminate Hin|]).
        now apply elem_of_nil in Hin.
      + apply Forall_forall. intros a _. discriminate. }
  now apply Forall_app in Hall as [Hall _].
Qed.

Lemma consent_withdrawn_tag_never_cleared_witness :
  exists n',
    store (annotate_results_collection ["run"] "multiplexed_experiment_001" 1
             [flowcell None "sample 1"]
             (mkWorld {[ ["run"] :=
                           mkNode {[ ("", "sample_consent_withdrawn") := VInt 1 ]} ∅ ]}
                      [])).2
      !! ["run"] = Some n' /\
    metadata n' !! ("", "sample_consent_withdrawn")
    = metadata (mkNode {[ ("", "sample_consent_withdrawn") := VInt 1 ]} ∅)
        !! ("", "sample_consent_withdrawn").
Proof.
  apply (consent_withdrawn_tag_never_cleared ["run"] "multiplexed_experiment_001" 1
           [flowcell None "sample 1"]).
  - repeat constructor.
  - apply lookup_singleton_eq.
Defined.

(* ===================================================================== *)
(** ** Edge cases of an invocation *)
(* ===================================================================== *)

(** X15. When the root collection does not exist, the invocation raises
    for it at the instrument call, before any record is looked at: that
    call is the only one made and the zone is left as it was. *)
Theorem annotate_missing_root (path : PurePath) (e : str) (p : Z)
    (session : Session) (w : world) :
  store w !! path = None ->
  annotate_results_collection path e p session w =
  (Raise (RodsError path),
   mkWorld (store w) (calls w ++ [instrument_call path e p])).
Proof.
  intros Hroot. rewrite annotate_attempt. cbn zeta.
  cbn [attempt instrument_call call_target]. rewrite Hroot. reflexivity.
Qed.

Lemma annotate_missing_root_witness :
  annotate_results_collection ["run"] "multiplexed_experiment_001" 1
    [flowcell None "sample 1"] (zone [["elsewhere"]]) =
  (Raise (RodsError ["run"]),
   mkWorld (store (zone [["elsewhere"]]))
           (calls (zone [["elsewhere"]])
            ++ [instrument_call ["run"] "multiplexed_experiment_001" 1])).
Proof.
  apply annotate_missing_root. reflexivity.
Defined.

(** X16. When the plex query finds no record, the invocation is not an
    error: with the root collection in place it returns after the
    instrument call alone; the root gets the two instrument tags and keeps
    all its other tags and its grants, and every other node is unchanged. *)
Theorem annotate_no_records (path : PurePath) (e : str) (p : Z)
    (session : Session) (w : world) (n : node) :
  find_ont_plex_info session e p = [] ->
  store w !! path = Some n ->
  annotate_results_collection path e p session w =
  (Return tt,
   mkWorld
     (<[path :=
          mkNode (<[("ont", "instrument_slot") := VInt p]>
                    (<[("ont", "experiment_name") := VStr e]> (metadata n)))
                 (acl n)]> (store w))
     (calls w ++ [instrument_call path e p])).
Proof.
  intros Hplex Hroot. rewrite annotate_attempt, Hplex. cbn zeta.
  cbn [plan fst snd attempt instrument_call call_target]. rewrite Hroot.
  cbn [option_list app]. do 2 f_equal.
  unfold apply_calls, instrument_call. cbn [foldl apply_call].
  apply map_eq. intros q. rewrite lookup_alter. case_decide as Hq.
  - subst q. now rewrite Hroot, lookup_insert_eq.
  - rewrite lookup_insert_ne by exact Hq. reflexivity.
Qed.

Lemma annotate_no_records_witness :
  (annotate_results_collection ["run"] "simple_experiment_001" 1
     [flowcell None "sample 1"] (zone [["run"]])).1 = Return tt.
Proof.
  rewrite (annotate_no_records ["run"] "simple_experiment_001" 1
             [flowcell None "sample 1"] (zone [["run"]]) (mkNode ∅ ∅));
    reflexivity.
Defined.

(* ===================================================================== *)
(** ** What an invocation leaves behind *)
(* ===================================================================== *)

Lemma omap_meta_key_UMeta (avus : list AVU) :
  omap upd_meta_key (UMeta <$> avus)
  = (fun a => (avu_namespace a, avu_attribute a)) <$> avus.
Proof.
  induction avus as [|a l IH]; [reflexivity|].
  rewrite !fmap_cons. cbn [omap list_omap upd_meta_key]. f_equal. exact IH.
Qed.

(** Among updates that write each tag key at most once, every tag written
    is there at the end, with its value. *)
Lemma meta_written (us : list upd) (a : AVU) :
  forall n : node,
    NoDup (omap upd_meta_key us) -> UMeta a ∈ us ->
    metadata (foldl apply_upd n us) !! (avu_namespace a, avu_attribute a)
    = Some (avu_value a).
Proof.
  induction us as [|u us IH]; intros n Hnd Hin; [now apply elem_of_nil in Hin|].
  simpl. apply elem_of_cons in Hin as [<- | Hin].
  - simpl in Hnd. apply NoDup_cons in Hnd as [Hk _].
    rewrite meta_untouched.
    + simpl. apply lookup_insert_eq.
    + apply Forall_forall. intros u Hu Heq. apply Hk.
      apply list_elem_of_omap. eauto.
  - apply IH; [|exact Hin]. simpl in Hnd.
    destruct (upd_meta_key u); [now apply NoDup_cons in Hnd as [_ Hnd] | exact Hnd].
Qed.

(** The tags of one record, written one after the other, are all there at
    the end, whatever was written before them. *)
Lemma derived_tags_written (idx : Z) (fc : OseqFlowcell.t) (tags : list AVU)
    (n : node) (a : AVU) :
  tags `sublist_of` derived_tags idx fc -> a ∈ tags ->
  metadata (foldl apply_upd n (UMeta <$> tags)) !! ("", avu_attribute a)
  = Some (avu_value a).
Proof.
  intros Hsub Ha.
  assert (Hns : avu_namespace a = "").
  { pose proof (derived_tags_namespace idx fc) as H.
    rewrite Forall_forall in H. apply H. eapply elem_of_sublist; eauto. }
  rewrite <- Hns. apply meta_written; [|apply list_elem_of_fmap; eauto].
  rewrite omap_meta_key_UMeta.
  assert (Hattr : NoDup (avu_attribute <$> tags)).
  { eapply sublist_NoDup; [apply (derived_tags_NoDup idx fc)|].
    now apply fmap_sublist. }
  assert (Hall : Forall (fun x => avu_namespace x = "") tags).
  { apply Forall_forall. intros x Hx.
    pose proof (derived_tags_namespace idx fc) as H.
    rewrite Forall_forall in H. apply H. eapply elem_of_sublist; eauto. }
  clear -Hattr Hall. induction Hall as [|x l Hx _ IH]; [constructor|].
  rewrite fmap_cons in *. apply NoDup_cons in Hattr as [Hx' Hattr].
  apply NoDup_cons. split; [|now apply IH].
  intros Hin. apply Hx'. apply list_elem_of_fmap in Hin as (y & Hy & Hyin).
  apply list_elem_of_fmap. exists y. split; [congruence | exact Hyin].
Qed.

(** The updates that the calls for one sample/study pair make to a node:
    the tags when the node is the target, the grant when it is the target
    or beneath it. *)
Lemma sample_study_calls_updates (q coll : PurePath) (fc : OseqFlowcell.t) :
  sample_study_calls coll fc ≫= node_updates q
  = (if bool_decide (q = coll)
     then UMeta <$> (make_study_metadata (OseqFlowcell.study fc)
                     ++ make_sample_metadata (OseqFlowcell.sample fc))
     else [])
    ++ (if bool_decide (coll `prefix_of` q)
        then UAcl <$> make_sample_acl (OseqFlowcell.sample fc) (OseqFlowcell.study fc)
        else []).
Proof.
  unfold sample_study_calls. rewrite !bind_cons.
  change (@nil call ≫= node_updates q) with (@nil upd). rewrite app_nil_r.
  cbn [node_updates]. unfold reaches. cbn [andb].
  assert (Hr : bool_decide (q = coll) || bool_decide (coll `prefix_of` q)
               = bool_decide (coll `prefix_of` q)).
  { case_bool_decide as H1; [|reflexivity]. subst q.
    now rewrite bool_decide_eq_true_2. }
  rewrite Hr. case_bool_decide; [|reflexivity].
  now rewrite fmap_app, app_assoc.
Qed.

Lemma barcode_calls_updates (q coll : PurePath) (idx : Z) (fc : OseqFlowcell.t) :
  barcode_calls coll idx fc ≫= node_updates q
  = (if bool_decide (q = coll) then UMeta <$> derived_tags idx fc else [])
    ++ (if bool_decide (coll `prefix_of` q)
        then UAcl <$> make_sample_acl (OseqFlowcell.sample fc) (OseqFlowcell.study fc)
        else []).
Proof.
  unfold barcode_calls. rewrite bind_cons, sample_study_calls_updates.
  cbn [node_updates]. unfold derived_tags.
  case_bool_decide; [|reflexivity]. now rewrite app_assoc.
Qed.

(** The grant of a record, written last, is the grant at the end. *)
Lemma grant_written_last (us : list upd) (fc : OseqFlowcell.t) (n : node) :
  acl (foldl apply_upd n
         (us ++ (UAcl <$> make_sample_acl (OseqFlowcell.sample fc)
                                          (OseqFlowcell.study fc))))
    !! ("ss_" ++ Study.id_study_lims (OseqFlowcell.study fc))
  = Some (if Sample.consent_withdrawn (OseqFlowcell.sample fc)
          then Permission.NULL else Permission.READ).
Proof.
  rewrite foldl_app. unfold make_sample_acl. simpl. apply lookup_insert_eq.
Qed.

(** X17. The single-sample case, as the tests check it. When the plex query
    returns one record that is not tagged and the root collection exists,
    the invocation returns, and afterwards the root collection carries the
    two instrument tags and every derived study and sample tag with its
    value, and the root collection and every node beneath it carry the
    derived grant: NULL for the study's group when consent is withdrawn,
    READ otherwise. *)
Theorem annotate_single_sample (path : PurePath) (e : str) (p : Z)
    (session : Session) (w : world) (fc : OseqFlowcell.t) (n : node) :
  find_ont_plex_info session e p = [fc] ->
  tagged fc = false ->
  store w !! path = Some n ->
  (annotate_results_collection path e p session w).1 = Return tt /\
  (exists n',
     store (annotate_results_collection path e p session w).2 !! path = Some n' /\
     metadata n' !! ("ont", "experiment_name") = Some (VStr e) /\
     metadata n' !! ("ont", "instrument_slot") = Some (VInt p) /\
     forall avu,
       avu ∈ make_study_metadata (OseqFlowcell.study fc)
             ++ make_sample_metadata (OseqFlowcell.sample fc) ->
       metadata n' !! ("", avu_attribute avu) = Some (avu_value avu)) /\
  (forall (q : PurePath) (m : node),
     path `prefix_of` q -> store w !! q = Some m ->
     exists m',
       store (annotate_results_collection path e p session w).2 !! q = Some m' /\
       acl m' !! ("ss_" ++ Study.id_study_lims (OseqFlowcell.study fc))
       = Some (if Sample.consent_withdrawn (OseqFlowcell.sample fc)
               then Permission.NULL else Permission.READ)).
Proof.
  intros Hplex Htag Hroot.
  rewrite annotate_routed; [|eauto|rewrite Hplex; repeat constructor; congruence].
  cbn zeta. cbn [fst snd store]. rewrite Hplex, bind_cons.
  change (@nil OseqFlowcell.t ≫= routed_calls path) with (@nil call).
  rewrite app_nil_r.
  apply tagged_false in Htag. rewrite (routed_calls_untagged path fc Htag).
  split; [reflexivity|]. split.
  - rewrite apply_calls_lookup, Hroot. eexists. split; [reflexivity|].
    rewrite bind_cons. unfold instrument_call. cbn [node_updates].
    rewrite bool_decide_eq_true_2 by reflexivity.
    repeat split.
    + rewrite foldl_app, foldl_plain_upd by apply sample_study_calls_plain.
      simpl. rewrite lookup_insert_ne by congruence. apply lookup_insert_eq.
    + rewrite foldl_app, foldl_plain_upd by apply sample_study_calls_plain.
      simpl. apply lookup_insert_eq.
    + intros avu Havu. rewrite sample_study_calls_updates.
      rewrite !bool_decide_eq_true_2 by reflexivity.
      rewrite app_assoc, foldl_app.
      rewrite meta_untouched
        by (apply Forall_fmap, Forall_forall; intros ? _; discriminate).
      rewrite foldl_app.
      apply (derived_tags_written 0 fc); [|exact Havu].
      unfold derived_tags. now apply sublist_cons.
  - intros q m Hq Hm. rewrite apply_calls_lookup, Hm. eexists. split; [reflexivity|].
    rewrite bind_cons, sample_study_calls_updates.
    rewrite (bool_decide_eq_true_2 _ Hq), !app_assoc.
    apply grant_written_last.
Qed.

Lemma annotate_single_sample_witness :
  (annotate_results_collection ["run"] "multiplexed_experiment_001" 1
     [flowcell None "sample 1"] (zone [["run"]])).1 = Return tt.
Proof.
  refine (proj1 (annotate_single_sample ["run"] "multiplexed_experiment_001" 1
                   [flowcell None "sample 1"] (zone [["run"]])
                   (flowcell None "sample 1") (mkNode ∅ ∅) _ _ _));
    reflexivity.
Defined.

(** Two sub-collections of one collection that are both above a node are
    the same. *)
Lemma joinpath_prefix_eq (path q : PurePath) (a b : str) :
  joinpath path a `prefix_of` q -> joinpath path b `prefix_of` q -> a = b.
Proof.
  intros [k1 ->] [k2 H]. unfold joinpath in H. rewrite <- !app_assoc in H.
  apply app_inv_head in H. now injection H.
Qed.

Lemma tagged_after (pre post : list OseqFlowcell.t) (fc : OseqFlowcell.t) :
  Sorted tagged_mono (pre ++ fc :: post) -> tagged fc = true ->
  Forall (fun r => tagged r = true) post.
Proof.
  induction pre as [|x pre IH]; intros Hs Ht.
  - now apply (tagged_mono_rest fc).
  - apply IH; [|exact Ht]. now inversion Hs.
Qed.

Lemma barcode_target_tagged (path : PurePath) (fc : OseqFlowcell.t) (coll : PurePath) :
  barcode_target path fc = Some coll -> tagged fc = true.
Proof.
  intros H. apply barcode_target_inv in H as (t & g & ix & Ht & _).
  apply tagged_true. eauto.
Qed.

(** A tagged record whose barcode sub-collection is another one makes no
    update at or beneath a given barcode sub-collection. *)
Lemma routed_calls_other_target (st : gmap PurePath node) (path tgt q : PurePath)
    (r : OseqFlowcell.t) :
  tagged r = true -> processable st path r ->
  barcode_target path r <> Some tgt ->
  (exists name, tgt = joinpath path name) ->
  tgt `prefix_of` q ->
  routed_calls path r ≫= node_updates q = [].
Proof.
  intros Htag Hp Hne [name ->] Hq.
  destruct (Hp Htag) as (coll & Hc & _).
  destruct (barcode_target_inv _ _ _ Hc) as (t & g & ix & Ht & Hg & Hi & ->).
  rewrite (routed_calls_tagged path r t g ix Ht Hg Hi), barcode_calls_updates.
  assert (Hout : ~ joinpath path ("barcode" ++ zfill 2 g) `prefix_of` q).
  { intros Hpre. apply Hne. rewrite Hc. f_equal. f_equal.
    exact (joinpath_prefix_eq path q _ _ Hpre Hq). }
  rewrite (bool_decide_eq_false_2 _ Hout).
  rewrite bool_decide_eq_false_2; [reflexivity|].
  intros ->. now apply Hout.
Qed.

(** X18. The last record of a barcode sub-collection decides. When the root
    collection exists and every record of the plex query can be processed,
    the invocation returns, and for a record with a well-formed tag
    identifier that no later record shares its barcode sub-collection with:
    the sub-collection carries the record's tag index and every derived
    study and sample tag with its value, and the sub-collection and every
    node beneath it carry the record's grant, whatever earlier records
    wrote. *)
Theorem annotate_barcode_collection (path : PurePath) (e : str) (p : Z)
    (session : Session) (w : world) (pre post : list OseqFlowcell.t)
    (fc : OseqFlowcell.t) (tgt : PurePath) (idx : Z) :
  find_ont_plex_info session e p = pre ++ fc :: post ->
  is_Some (store w !! path) ->
  Forall (processable (store w) path) (find_ont_plex_info session e p) ->
  barcode_target path fc = Some tgt ->
  record_tag_index fc = Some idx ->
  Forall (fun r => barcode_target path r <> Some tgt) post ->
  (annotate_results_collection path e p session w).1 = Return tt /\
  (exists n',
     store (annotate_results_collection path e p session w).2 !! tgt = Some n' /\
     forall avu,
       avu ∈ derived_tags idx fc ->
       metadata n' !! ("", avu_attribute avu) = Some (avu_value avu)) /\
  (forall (q : PurePath) (m : node),
     tgt `prefix_of` q -> store w !! q = Some m ->
     exists m',
       store (annotate_results_collection path e p session w).2 !! q = Some m' /\
       acl m' !! ("ss_" ++ Study.id_study_lims (OseqFlowcell.study fc))
       = Some (if Sample.consent_withdrawn (OseqFlowcell.sample fc)
               then Permission.NULL else Permission.READ)).
Proof.
  intros Hplex Hroot Hproc Htgt Hidx Hpost.
  pose proof (barcode_target_tagged _ _ _ Htgt) as Htag.
  assert (Hupd : forall q : PurePath, tgt `prefix_of` q ->
            exists us,
              (instrument_call path e p
                 :: (find_ont_plex_info session e p ≫= routed_calls path))
                ≫= node_updates q
              = us ++ (barcode_calls tgt idx fc ≫= node_updates q)).
  { intros q Hq.
    assert (Hrest : (post ≫= routed_calls path) ≫= node_updates q = []).
    { pose proof (find_ont_plex_info_tagged_mono session e p) as Hs.
      rewrite Hplex in Hs, Hproc. apply tagged_after in Hs; [|exact Htag].
      apply Forall_app in Hproc as [_ Hproc].
      apply Forall_cons in Hproc as [_ Hproc].
      clear Hplex. induction post as [|r post IH]; [reflexivity|].
      apply Forall_cons in Hs as [Hr Hs]. apply Forall_cons in Hproc as [Hpr Hproc].
      apply Forall_cons in Hpost as [Hnr Hpost].
      rewrite bind_cons, bind_app, IH by assumption.
      rewrite (routed_calls_other_target (store w) path tgt q r); try assumption;
        [reflexivity|].
      now apply (barcode_target_joinpath path fc). }
    assert (Hfc : routed_calls path fc = barcode_calls tgt idx fc).
    { unfold routed_calls. now rewrite Htag, Htgt, Hidx. }
    rewrite Hplex, bind_cons, !bind_app, bind_cons, bind_app, Hrest, Hfc, app_nil_r.
    rewrite app_assoc. eauto. }
  rewrite annotate_routed by assumption. cbn zeta. cbn [fst snd store].
  split; [reflexivity|]. split.
  - assert (Hex : is_Some (store w !! tgt)).
    { rewrite Forall_forall in Hproc.
      destruct (Hproc fc) as (coll & Hc & Hex); [|exact Htag|congruence].
      rewrite Hplex. apply elem_of_app. right. apply elem_of_cons. now left. }
    destruct Hex as [n Hn]. rewrite apply_calls_lookup, Hn.
    eexists. split; [reflexivity|]. intros avu Havu.
    destruct (Hupd tgt) as [us ->]; [reflexivity|].
    rewrite barcode_calls_updates, !bool_decide_eq_true_2 by reflexivity.
    rewrite app_assoc, foldl_app.
    rewrite meta_untouched
      by (apply Forall_fmap, Forall_forall; intros ? _; discriminate).
    rewrite foldl_app.
    now apply (derived_tags_written idx fc).
  - intros q m Hq Hm. rewrite apply_calls_lookup, Hm.
    eexists. split; [reflexivity|].
    destruct (Hupd q Hq) as [us ->].
    rewrite barcode_calls_updates, (bool_decide_eq_true_2 _ Hq), !app_assoc.
    apply grant_written_last.
Qed.

Lemma annotate_barcode_collection_witness :
  (annotate_results_collection ["run"] "multiplexed_experiment_001" 1
     [flowcell (Some "ONT_EXP-012-01") "sample 1";
      flowcell (Some "ONT_EXP-012-02") "sample 2"]
     (zone [["run"]; ["run"; "barcode01"]; ["run"; "barcode02"]])).1
  = Return tt.
Proof.
  refine (proj1 (annotate_barcode_collection ["run"] "multiplexed_experiment_001" 1
     [flowcell (Some "ONT_EXP-012-01") "sample 1";
      flowcell (Some "ONT_EXP-012-02") "sample 2"]
     (zone [["run"]; ["run"; "barcode01"]; ["run"; "barcode02"]])
     [] [flowcell (Some "ONT_EXP-012-02") "sample 2"]
     (flowcell (Some "ONT_EXP-012-01") "sample 1")
     ["run"; "barcode01"] 1 _ _ _ _ _ _)).
  - reflexivity.
  - vm_compute. eauto.
  - change (find_ont_plex_info _ _ _)
      with [flowcell (Some "ONT_EXP-012-01") "sample 1";
            flowcell (Some "ONT_EXP-012-02") "sample 2"].
    repeat constructor.
    + exists ["run"; "barcode01"]. split; [reflexivity | vm_compute; eauto].
    + exists ["run"; "barcode02"]. split; [reflexivity | vm_compute; eauto].
  - reflexivity.
  - reflexivity.
  - repeat constructor. vm_compute. discriminate.
Defined.

Lemma record_tag_index_inv (fc : OseqFlowcell.t) (t g : str) (idx : Z) :
  truthy (OseqFlowcell.tag_identifier fc) = Some t ->
  TAG_IDENTIFIER_REGEX_search t = Some g ->
  record_tag_index fc = Some idx -> int g = Return idx.
Proof.
  intros Ht Hg. unfold record_tag_index, tag_index. rewrite Ht, Hg.
  destruct (int g); congruence.
Qed.

(** X19. A barcode sub-collection that does not exist ends the invocation.
    When the root collection exists and the records before a tagged record
    can be processed, but the barcode sub-collection of that record is not
    in the zone, the invocation raises the storage error for that
    sub-collection at the first call on it, the one for the tag index. The
    instrument call and the calls of the earlier records have taken effect,
    and nothing is written for the record or for those after it. *)
Theorem annotate_missing_barcode_collection (path : PurePath) (e : str) (p : Z)
    (session : Session) (w : world) (pre post : list OseqFlowcell.t)
    (fc : OseqFlowcell.t) (tgt : PurePath) (idx : Z) :
  find_ont_plex_info session e p = pre ++ fc :: post ->
  is_Some (store w !! path) ->
  Forall (processable (store w) path) pre ->
  barcode_target path fc = Some tgt ->
  record_tag_index fc = Some idx ->
  store w !! tgt = None ->
  annotate_results_collection path e p session w =
  let cs := instrument_call path e p :: (pre ≫= routed_calls path) in
  (Raise (RodsError tgt),
   mkWorld (apply_calls cs (store w))
           (calls w ++ cs ++ [AddMetadata tgt [AVU_new "tag_index" (VInt idx)]])).
Proof.
  intros Hplex Hroot Hpre Htgt Hidx Hmiss.
  destruct (barcode_target_inv _ _ _ Htgt) as (t & g & ix & Ht & Hg & _ & ->).
  pose proof (record_tag_index_inv fc t g idx Ht Hg Hidx) as Hi.
  rewrite annotate_attempt. cbn zeta.
  destruct (plan_split path pre (fc :: post) path) as [coll' H].
  - rewrite <- Hplex. apply find_ont_plex_info_tagged_mono.
  - now left.
  - eapply List.Forall_impl; [|exact Hpre]. intros x. apply processable_well_formed.
  - rewrite Hplex, H. cbn [fst snd plan]. rewrite Ht, Hg, Hi.
    destruct (plan path _ post) as [cs' e']. cbn [fst snd].
    rewrite app_comm_cons, attempt_app_exist.
    + unfold barcode_calls. rewrite <- app_comm_cons.
      cbn [attempt call_target]. rewrite Hmiss.
      cbn [fst snd option_list]. rewrite app_nil_r. reflexivity.
    + constructor; [exact Hroot | now apply bind_routed_calls_exist].
Qed.

Lemma annotate_missing_barcode_collection_witness :
  (annotate_results_collection ["run"] "multiplexed_experiment_001" 1
     [flowcell (Some "ONT_EXP-012-01") "sample 1";
      flowcell (Some "ONT_EXP-012-02") "sample 2"]
     (zone [["run"]; ["run"; "barcode01"]])).1
  = Raise (RodsError ["run"; "barcode02"]).
Proof.
  rewrite (annotate_missing_barcode_collection ["run"] "multiplexed_experiment_001" 1
     [flowcell (Some "ONT_EXP-012-01") "sample 1";
      flowcell (Some "ONT_EXP-012-02") "sample 2"]
     (zone [["run"]; ["run"; "barcode01"]])
     [flowcell (Some "ONT_EXP-012-01") "sample 1"] []
     (flowcell (Some "ONT_EXP-012-02") "sample 2")
     ["run"; "barcode02"] 2).
  - reflexivity.
  - reflexivity.
  - vm_compute. eauto.
  - repeat constructor. intros _.
    exists ["run"; "barcode01"]. split; [reflexivity | vm_compute; eauto].
  - reflexivity.
  - reflexivity.
  - reflexivity.
Defined.
